(** * SignSpeak AI (src/App.tsx): a shallow embedding of the component's
      event handlers and the properties of its analysis loop.

    The React component [App] keeps its data in [useState] cells and
    [useRef] boxes and reacts to button clicks, to a repeating window
    timer and to the completion of asynchronous calls (camera acquisition,
    remote inference).  The embedding is a state machine over a record
    [World] holding the refs, the state cells and the part of the browser
    the handlers touch; every handler of the source is a command of a small
    state monad, and an [async] function is split at its single [await]
    into the part that runs when it is called and the part that runs when
    the awaited promise settles. *)

From Stdlib Require Import String Ascii NArith List Lia.
From stdpp Require Import base option list gmap.

Local Open Scope N_scope.
Local Open Scope nat_scope.

(** ** JavaScript strings *)

Module JS.

(** A JavaScript string is a sequence of UTF-16 code units. *)
Definition jsstring := list N.

(** An ASCII literal of the source as a JavaScript string. *)
Definition js (s : String.string) : jsstring :=
  List.map N_of_ascii (list_ascii_of_string s).

(** WhiteSpace and LineTerminator code points of ECMAScript, the
    characters that [String.prototype.trim] strips. *)
Definition isWhiteSpace (c : N) : bool :=
  ((9 <=? c) && (c <=? 13) || (c =? 32) || (c =? 160) || (c =? 5760)
   || (8192 <=? c) && (c <=? 8202) || (c =? 8232) || (c =? 8233)
   || (c =? 8239) || (c =? 8287) || (c =? 12288) || (c =? 65279))%N.

Fixpoint trimStart (s : jsstring) : jsstring :=
  match s with
  | c :: s' => if isWhiteSpace c then trimStart s' else s
  | [] => []
  end.

Definition trimEnd (s : jsstring) : jsstring :=
  rev (trimStart (rev s)).

(** [s.trim()] *)
Definition trim (s : jsstring) : jsstring := trimEnd (trimStart s).

Fixpoint startsWith (s sub : jsstring) : bool :=
  match sub, s with
  | [], _ => true
  | _ :: _, [] => false
  | a :: sub', b :: s' => (a =? b)%N && startsWith s' sub'
  end.

(** [s.includes(sub)] *)
Fixpoint includes (s sub : jsstring) : bool :=
  startsWith s sub ||
  match s with
  | [] => false
  | _ :: s' => includes s' sub
  end.

(** [s.split(sep)] for a separator of one code unit. *)
Fixpoint split (sep : N) (s : jsstring) : list jsstring :=
  match s with
  | [] => [[]]
  | c :: s' =>
      if (c =? sep)%N then [] :: split sep s'
      else match split sep s' with
           | piece :: rest => (c :: piece) :: rest
           | [] => [[c]]
           end
  end.

(** A value spliced into a template literal: [undefined] prints as the
    word "undefined". *)
Definition interpolate (v : option jsstring) : jsstring :=
  default (js "undefined") v.

(** Truthiness of a [string | undefined | null] value: the empty string
    is falsy like [undefined]. *)
Definition truthy (v : option jsstring) : bool :=
  match v with
  | Some (_ :: _) => true
  | _ => false
  end.

End JS.
Import JS.

(* Literals stay folded when goals are simplified. *)
Arguments js : simpl never.

(** ** Constants (App.tsx, lines 18-21) *)

Definition MODEL_NAME : jsstring := js "gemini-2.0-flash".
Definition ANALYSIS_INTERVAL : N := 10000.
Definition VIDEO_WIDTH : N := 640.
Definition VIDEO_HEIGHT : N := 480.

(** ** Data model *)

(** The [type] of a log line: ['info' | 'error' | 'success']. *)
Inductive LogType := Info | Error | Success.

Definition toUpperCase (t : LogType) : jsstring :=
  match t with
  | Info => js "INFO"
  | Error => js "ERROR"
  | Success => js "SUCCESS"
  end.

(** An element of [logs]: [{time, msg, type}]. *)
Record LogEntry := mkLog {
  log_time : jsstring;
  log_msg : jsstring;
  log_type : LogType
}.

(** An element of [history]: [{text, time}]. *)
Record HistoryEntry := mkHistory {
  text : jsstring;
  time : jsstring
}.

(** A [MediaStream], by the identifiers of its tracks. *)
Record MediaStream := mkStream { getTracks : list positive }.

(** The [<video>] element: only its [srcObject] is used. *)
Record HTMLVideoElement := mkVideo { srcObject : option MediaStream }.

(** The hidden [<canvas>] element. *)
Inductive HTMLCanvasElement := Canvas.

(** An entry of the window's table of repeating timers.  The callback is
    always the [analyzeFrame] closure of the render in which
    [startAnalysis] ran; the only state value that closure reads is
    [isCameraActive], so the closure is represented by that flag. *)
Record Interval := mkInterval {
  closure_isCameraActive : bool;
  delay : N
}.

(** The request passed to [genAI.models.generateContent]: one user message
    with a text part and, for a frame, one inline JPEG part. *)
Record Request := mkRequest {
  req_apiKey : jsstring;
  req_model : jsstring;
  req_text : jsstring;
  req_inlineData : option (option jsstring)
}.

(** What the handlers do to the outside that is not kept in a table of
    [World]: console lines, canvas draws, outbound calls. *)
Inductive effect :=
| ConsoleLog (line : jsstring)
| DrawImage (width height : N)
| GenerateContent (r : Request)
| GetUserMedia (width height : N).

(** An [async] function suspended at its [await]. *)
Inductive pending_call :=
| AwaitUserMedia      (* startCamera, line 86 *)
| AwaitTest           (* testAIConnection, line 66 *)
| AwaitAnalysis.      (* analyzeFrame, line 129 *)

(** What the canvas gives when [analyzeFrame] captures a frame:
    [getContext('2d')] is null, drawing or encoding throws, or
    [toDataURL] returns a data URL. *)
Inductive capture :=
| NoContext
| CaptureThrows (message : option jsstring)
| DataURL (url : jsstring).

Record World := mkWorld {
  (* refs, lines 25-27 *)
  videoRef : option HTMLVideoElement;
  canvasRef : option HTMLCanvasElement;
  analysisTimerRef : option positive;
  (* state, lines 30-37 *)
  isAnalyzing : bool;
  isCameraActive : bool;
  transcription : jsstring;
  error : option jsstring;
  history : list HistoryEntry;
  isModelLoading : bool;
  logs : list LogEntry;
  showDebug : bool;
  (* environment *)
  GEMINI_API_KEY : option jsstring;         (* process.env.GEMINI_API_KEY *)
  clock : nat -> jsstring;                  (* successive toLocaleTimeString() readings *)
  clockReads : nat;                         (* readings consumed so far *)
  intervals : gmap positive Interval;       (* the window's active repeating timers *)
  nextHandle : positive;                    (* next handle setInterval returns *)
  liveTracks : gset positive;               (* camera tracks that are not stopped *)
  pending : list pending_call;              (* suspended async calls *)
  effects : list effect                     (* newest first *)
}.

(** ** Field updates

    [with_f g w] is [w] with field [f] replaced by [g (f w)]. *)

Definition with_videoRef (g : option HTMLVideoElement -> option HTMLVideoElement) (w : World) : World :=
  {| videoRef := g (videoRef w); canvasRef := canvasRef w;
     analysisTimerRef := analysisTimerRef w; isAnalyzing := isAnalyzing w;
     isCameraActive := isCameraActive w; transcription := transcription w;
     error := error w; history := history w;
     isModelLoading := isModelLoading w; logs := logs w;
     showDebug := showDebug w; GEMINI_API_KEY := GEMINI_API_KEY w;
     clock := clock w; clockReads := clockReads w; intervals := intervals w;
     nextHandle := nextHandle w; liveTracks := liveTracks w;
     pending := pending w; effects := effects w |}.

Definition with_canvasRef (g : option HTMLCanvasElement -> option HTMLCanvasElement) (w : World) : World :=
  {| videoRef := videoRef w; canvasRef := g (canvasRef w);
     analysisTimerRef := analysisTimerRef w; isAnalyzing := isAnalyzing w;
     isCameraActive := isCameraActive w; transcription := transcription w;
     error := error w; history := history w;
     isModelLoading := isModelLoading w; logs := logs w;
     showDebug := showDebug w; GEMINI_API_KEY := GEMINI_API_KEY w;
     clock := clock w; clockReads := clockReads w; intervals := intervals w;
     nextHandle := nextHandle w; liveTracks := liveTracks w;
     pending := pending w; effects := effects w |}.

Definition with_analysisTimerRef (g : option positive -> option positive) (w : World) : World :=
  {| videoRef := videoRef w; canvasRef := canvasRef w;
     analysisTimerRef := g (analysisTimerRef w); isAnalyzing := isAnalyzing w;
     isCameraActive := isCameraActive w; transcription := transcription w;
     error := error w; history := history w;
     isModelLoading := isModelLoading w; logs := logs w;
     showDebug := showDebug w; GEMINI_API_KEY := GEMINI_API_KEY w;
     clock := clock w; clockReads := clockReads w; intervals := intervals w;
     nextHandle := nextHandle w; liveTracks := liveTracks w;
     pending := pending w; effects := effects w |}.

Definition with_isAnalyzing (g : bool -> bool) (w : World) : World :=
  {| videoRef := videoRef w; canvasRef := canvasRef w;
     analysisTimerRef := analysisTimerRef w; isAnalyzing := g (isAnalyzing w);
     isCameraActive := isCameraActive w; transcription := transcription w;
     error := error w; history := history w;
     isModelLoading := isModelLoading w; logs := logs w;
     showDebug := showDebug w; GEMINI_API_KEY := GEMINI_API_KEY w;
     clock := clock w; clockReads := clockReads w; intervals := intervals w;
     nextHandle := nextHandle w; liveTracks := liveTracks w;
     pending := pending w; effects := effects w |}.

Definition with_isCameraActive (g : bool -> bool) (w : World) : World :=
  {| videoRef := videoRef w; canvasRef := canvasRef w;
     analysisTimerRef := analysisTimerRef w; isAnalyzing := isAnalyzing w;
     isCameraActive := g (isCameraActive w); transcription := transcription w;
     error := error w; history := history w;
     isModelLoading := isModelLoading w; logs := logs w;
     showDebug := showDebug w; GEMINI_API_KEY := GEMINI_API_KEY w;
     clock := clock w; clockReads := clockReads w; intervals := intervals w;
     nextHandle := nextHandle w; liveTracks := liveTracks w;
     pending := pending w; effects := effects w |}.

Definition with_transcription (g : jsstring -> jsstring) (w : World) : World :=
  {| videoRef := videoRef w; canvasRef := canvasRef w;
     analysisTimerRef := analysisTimerRef w; isAnalyzing := isAnalyzing w;
     isCameraActive := isCameraActive w; transcription := g (transcription w);
     error := error w; history := history w;
     isModelLoading := isModelLoading w; logs := logs w;
     showDebug := showDebug w; GEMINI_API_KEY := GEMINI_API_KEY w;
     clock := clock w; clockReads := clockReads w; intervals := intervals w;
     nextHandle := nextHandle w; liveTracks := liveTracks w;
     pending := pending w; effects := effects w |}.

Definition with_error (g : option jsstring -> option jsstring) (w : World) : World :=
  {| videoRef := videoRef w; canvasRef := canvasRef w;
     analysisTimerRef := analysisTimerRef w; isAnalyzing := isAnalyzing w;
     isCameraActive := isCameraActive w; transcription := transcription w;
     error := g (error w); history := history w;
     isModelLoading := isModelLoading w; logs := logs w;
     showDebug := showDebug w; GEMINI_API_KEY := GEMINI_API_KEY w;
     clock := clock w; clockReads := clockReads w; intervals := intervals w;
     nextHandle := nextHandle w; liveTracks := liveTracks w;
     pending := pending w; effects := effects w |}.

Definition with_history (g : list HistoryEntry -> list HistoryEntry) (w : World) : World :=
  {| videoRef := videoRef w; canvasRef := canvasRef w;
     analysisTimerRef := analysisTimerRef w; isAnalyzing := isAnalyzing w;
     isCameraActive := isCameraActive w; transcription := transcription w;
     error := error w; history := g (history w);
     isModelLoading := isModelLoading w; logs := logs w;
     showDebug := showDebug w; GEMINI_API_KEY := GEMINI_API_KEY w;
     clock := clock w; clockReads := clockReads w; intervals := intervals w;
     nextHandle := nextHandle w; liveTracks := liveTracks w;
     pending := pending w; effects := effects w |}.

Definition with_isModelLoading (g : bool -> bool) (w : World) : World :=
  {| videoRef := videoRef w; canvasRef := canvasRef w;
     analysisTimerRef := analysisTimerRef w; isAnalyzing := isAnalyzing w;
     isCameraActive := isCameraActive w; transcription := transcription w;
     error := error w; history := history w;
     isModelLoading := g (isModelLoading w); logs := logs w;
     showDebug := showDebug w; GEMINI_API_KEY := GEMINI_API_KEY w;
     clock := clock w; clockReads := clockReads w; intervals := intervals w;
     nextHandle := nextHandle w; liveTracks := liveTracks w;
     pending := pending w; effects := effects w |}.

Definition with_logs (g : list LogEntry -> list LogEntry) (w : World) : World :=
  {| videoRef := videoRef w; canvasRef := canvasRef w;
     analysisTimerRef := analysisTimerRef w; isAnalyzing := isAnalyzing w;
     isCameraActive := isCameraActive w; transcription := transcription w;
     error := error w; history := history w;
     isModelLoading := isModelLoading w; logs := g (logs w);
     showDebug := showDebug w; GEMINI_API_KEY := GEMINI_API_KEY w;
     clock := clock w; clockReads := clockReads w; intervals := intervals w;
     nextHandle := nextHandle w; liveTracks := liveTracks w;
     pending := pending w; effects := effects w |}.

Definition with_showDebug (g : bool -> bool) (w : World) : World :=
  {| videoRef := videoRef w; canvasRef := canvasRef w;
     analysisTimerRef := analysisTimerRef w; isAnalyzing := isAnalyzing w;
     isCameraActive := isCameraActive w; transcription := transcription w;
     error := error w; history := history w;
     isModelLoading := isModelLoading w; logs := logs w;
     showDebug := g (showDebug w); GEMINI_API_KEY := GEMINI_API_KEY w;
     clock := clock w; clockReads := clockReads w; intervals := intervals w;
     nextHandle := nextHandle w; liveTracks := liveTracks w;
     pending := pending w; effects := effects w |}.

Definition with_clockReads (g : nat -> nat) (w : World) : World :=
  {| videoRef := videoRef w; canvasRef := canvasRef w;
     analysisTimerRef := analysisTimerRef w; isAnalyzing := isAnalyzing w;
     isCameraActive := isCameraActive w; transcription := transcription w;
     error := error w; history := history w;
     isModelLoading := isModelLoading w; logs := logs w;
     showDebug := showDebug w; GEMINI_API_KEY := GEMINI_API_KEY w;
     clock := clock w; clockReads := g (clockReads w);
     intervals := intervals w; nextHandle := nextHandle w;
     liveTracks := liveTracks w; pending := pending w; effects := effects w |}.

Definition with_intervals (g : gmap positive Interval -> gmap positive Interval) (w : World) : World :=
  {| videoRef := videoRef w; canvasRef := canvasRef w;
     analysisTimerRef := analysisTimerRef w; isAnalyzing := isAnalyzing w;
     isCameraActive := isCameraActive w; transcription := transcription w;
     error := error w; history := history w;
     isModelLoading := isModelLoading w; logs := logs w;
     showDebug := showDebug w; GEMINI_API_KEY := GEMINI_API_KEY w;
     clock := clock w; clockReads := clockReads w;
     intervals := g (intervals w); nextHandle := nextHandle w;
     liveTracks := liveTracks w; pending := pending w; effects := effects w |}.

Definition with_nextHandle (g : positive -> positive) (w : World) : World :=
  {| videoRef := videoRef w; canvasRef := canvasRef w;
     analysisTimerRef := analysisTimerRef w; isAnalyzing := isAnalyzing w;
     isCameraActive := isCameraActive w; transcription := transcription w;
     error := error w; history := history w;
     isModelLoading := isModelLoading w; logs := logs w;
     showDebug := showDebug w; GEMINI_API_KEY := GEMINI_API_KEY w;
     clock := clock w; clockReads := clockReads w; intervals := intervals w;
     nextHandle := g (nextHandle w); liveTracks := liveTracks w;
     pending := pending w; effects := effects w |}.

Definition with_liveTracks (g : gset positive -> gset positive) (w : World) : World :=
  {| videoRef := videoRef w; canvasRef := canvasRef w;
     analysisTimerRef := analysisTimerRef w; isAnalyzing := isAnalyzing w;
     isCameraActive := isCameraActive w; transcription := transcription w;
     error := error w; history := history w;
     isModelLoading := isModelLoading w; logs := logs w;
     showDebug := showDebug w; GEMINI_API_KEY := GEMINI_API_KEY w;
     clock := clock w; clockReads := clockReads w; intervals := intervals w;
     nextHandle := nextHandle w; liveTracks := g (liveTracks w);
     pending := pending w; effects := effects w |}.

Definition with_pending (g : list pending_call -> list pending_call) (w : World) : World :=
  {| videoRef := videoRef w; canvasRef := canvasRef w;
     analysisTimerRef := analysisTimerRef w; isAnalyzing := isAnalyzing w;
     isCameraActive := isCameraActive w; transcription := transcription w;
     error := error w; history := history w;
     isModelLoading := isModelLoading w; logs := logs w;
     showDebug := showDebug w; GEMINI_API_KEY := GEMINI_API_KEY w;
     clock := clock w; clockReads := clockReads w; intervals := intervals w;
     nextHandle := nextHandle w; liveTracks := liveTracks w;
     pending := g (pending w); effects := effects w |}.

Definition with_effects (g : list effect -> list effect) (w : World) : World :=
  {| videoRef := videoRef w; canvasRef := canvasRef w;
     analysisTimerRef := analysisTimerRef w; isAnalyzing := isAnalyzing w;
     isCameraActive := isCameraActive w; transcription := transcription w;
     error := error w; history := history w;
     isModelLoading := isModelLoading w; logs := logs w;
     showDebug := showDebug w; GEMINI_API_KEY := GEMINI_API_KEY w;
     clock := clock w; clockReads := clockReads w; intervals := intervals w;
     nextHandle := nextHandle w; liveTracks := liveTracks w;
     pending := pending w; effects := g (effects w) |}.

(** ** Commands

    A handler is a command: it reads and updates the world and may return
    a value.  Sequencing uses stdpp's monad notation, [x ← c; k] and
    [c;; k]. *)

Definition M (A : Type) : Type := World -> A * World.

#[global] Instance M_ret : MRet M := fun A a w => (a, w).
#[global] Instance M_bind : MBind M :=
  fun A B k c w => let (a, w') := c w in k a w'.

Definition get : M World := fun w => (w, w).
Definition modify (g : World -> World) : M unit := fun w => (tt, g w).

(** The world a command leaves. *)
Definition exec {A} (c : M A) (w : World) : World := snd (c w).

(** [skip] is a [return;], or an [if] without [else] whose test fails. *)
Definition skip : M unit := mret tt.

(** *** The state setters of [useState] *)

Definition setIsAnalyzing (b : bool) : M unit := modify (with_isAnalyzing (fun _ => b)).
Definition setIsCameraActive (b : bool) : M unit := modify (with_isCameraActive (fun _ => b)).
Definition setTranscription (s : jsstring) : M unit := modify (with_transcription (fun _ => s)).
Definition setError (e : option jsstring) : M unit := modify (with_error (fun _ => e)).
Definition setIsModelLoading (b : bool) : M unit := modify (with_isModelLoading (fun _ => b)).
Definition setShowDebug (b : bool) : M unit := modify (with_showDebug (fun _ => b)).

(** [setHistory] and [setLogs] are called with updater functions. *)
Definition setHistory (g : list HistoryEntry -> list HistoryEntry) : M unit :=
  modify (with_history g).
Definition setLogs (g : list LogEntry -> list LogEntry) : M unit :=
  modify (with_logs g).

(** *** The browser *)

(** [new Date().toLocaleTimeString()]: the next reading of the clock. *)
Definition toLocaleTimeString : M jsstring :=
  fun w => (clock w (clockReads w), with_clockReads S w).

Definition emit (e : effect) : M unit := modify (with_effects (cons e)).

(** [window.setInterval(analyzeFrame, ms)], for the [analyzeFrame] closure
    that sees [cam] as [isCameraActive]. *)
Definition setInterval (cam : bool) (ms : N) : M positive :=
  fun w => (nextHandle w,
            with_nextHandle Pos.succ
              (with_intervals <[nextHandle w := mkInterval cam ms]> w)).

Definition clearInterval (h : positive) : M unit :=
  modify (with_intervals (delete h)).

(** [track.stop()] on every track of a stream. *)
Definition stopTracks (s : MediaStream) : M unit :=
  modify (with_liveTracks (fun live => live ∖ list_to_set (getTracks s))).

(** Reaching an [await]: the call is parked until its promise settles. *)
Definition suspend (p : pending_call) : M unit :=
  modify (with_pending (fun q => q ++ [p])).

(** ** The handlers of App.tsx *)

(** [addLog], lines 40-44. *)
Definition addLog (msg : jsstring) (type : LogType) : M unit :=
  time ← toLocaleTimeString;
  setLogs (fun prev => take 50 (mkLog time msg type :: prev));;
  emit (ConsoleLog (js "[" ++ toUpperCase type ++ js "] " ++ msg)).

(** The API-key effect run on mount, lines 47-55. *)
Definition verifyApiKey : M unit :=
  w ← get;
  if truthy (GEMINI_API_KEY w) then
    addLog (js "API Key found in environment") Success
  else
    addLog (js "API Key is missing from environment!") Error;;
    setError (Some (js "Gemini API Key is missing. Please add it to your environment variables.")).

(** [stopAnalysis], lines 168-176. *)
Definition stopAnalysis : M unit :=
  w ← get;
  match analysisTimerRef w with
  | Some h =>
      clearInterval h;;
      modify (with_analysisTimerRef (fun _ => None))
  | None => skip
  end;;
  setIsAnalyzing false;;
  setIsModelLoading false;;
  addLog (js "Auto-analysis stopped") Info.

(** [testAIConnection] up to its [await], lines 58-69; a missing key
    throws inside the [try] and runs [catch] and [finally] at once. *)
Definition testAIConnection : M unit :=
  addLog (js "Testing AI connection...") Info;;
  setIsModelLoading true;;
  w ← get;
  match GEMINI_API_KEY w with
  | Some (c :: k) =>
      emit (GenerateContent
              (mkRequest (c :: k) MODEL_NAME
                 (js "Hello, respond with 'Connection Successful' if you can read this.")
                 None));;
      suspend AwaitTest
  | _ =>
      addLog (js "AI Test Failed: " ++ js "No API Key") Error;;
      setError (Some (js "AI Test Failed: " ++ js "No API Key"));;
      setIsModelLoading false
  end.

(** How a remote call settles. *)
Inductive remote_outcome :=
| Response (text : option jsstring)      (* response.text may be undefined *)
| Throws (message : option jsstring).    (* err.message may be undefined *)

(** [testAIConnection] from its [await] on, lines 71-78. *)
Definition testAIConnection_resume (o : remote_outcome) : M unit :=
  match o with
  | Response text =>
      let result := trim <$> text in
      addLog (js "AI Response: " ++ interpolate result) Success
  | Throws message =>
      addLog (js "AI Test Failed: " ++ interpolate message) Error;;
      setError (Some (js "AI Test Failed: " ++ interpolate message))
  end;;
  setIsModelLoading false.

(** [startCamera] up to its [await], lines 82-89. *)
Definition startCamera : M unit :=
  addLog (js "Starting camera...") Info;;
  setError None;;
  emit (GetUserMedia VIDEO_WIDTH VIDEO_HEIGHT);;
  suspend AwaitUserMedia.

(** How [getUserMedia] settles. *)
Inductive camera_outcome :=
| Granted (stream : MediaStream)
| Denied (message : option jsstring).

(** [startCamera] from its [await] on, lines 90-98.  The tracks of a
    granted stream are live from the moment it is granted. *)
Definition startCamera_resume (o : camera_outcome) : M unit :=
  match o with
  | Granted stream =>
      modify (with_liveTracks (fun live => live ∪ list_to_set (getTracks stream)));;
      w ← get;
      match videoRef w with
      | Some _ =>
          modify (with_videoRef (fun _ => Some (mkVideo (Some stream))));;
          setIsCameraActive true;;
          addLog (js "Camera active") Success
      | None => skip
      end
  | Denied message =>
      addLog (js "Camera error: " ++ interpolate message) Error;;
      setError (Some (js "Camera Error: " ++ interpolate message))
  end.

(** [stopCamera], lines 101-110. *)
Definition stopCamera : M unit :=
  w ← get;
  match videoRef w with
  | Some (mkVideo (Some stream)) =>
      stopTracks stream;;
      modify (with_videoRef (fun _ => Some (mkVideo None)));;
      setIsCameraActive false;;
      addLog (js "Camera stopped") Info;;
      stopAnalysis
  | _ => skip
  end.

(** The [catch] block of [analyzeFrame], lines 149-154. *)
Definition analyzeFrame_catch (message : option jsstring) : M unit :=
  addLog (js "Analysis failed: " ++ interpolate message) Error;;
  if match message with
     | Some m => includes m (js "429") || includes m (js "RESOURCE_EXHAUSTED")
     | None => false
     end
  then
    setError (Some (js "Rate limit exceeded. Auto-analysis has been stopped to save your quota. Please wait a minute before trying again."));;
    stopAnalysis
  else skip.

(** [analyzeFrame] up to its [await], lines 113-140.  [cam] is the value
    of [isCameraActive] in the render whose closure is running; [cap] is
    what the canvas gives.  A [return] or a throw inside the [try] runs
    the [finally] block at once. *)
Definition analyzeFrame (cam : bool) (cap : capture) : M unit :=
  w ← get;
  match videoRef w, canvasRef w, cam with
  | Some _, Some _, true =>
      match GEMINI_API_KEY w with
      | Some (c :: k) =>
          setIsModelLoading true;;
          addLog (js "Analyzing frame...") Info;;
          match cap with
          | NoContext => setIsModelLoading false
          | CaptureThrows message =>
              analyzeFrame_catch message;;
              setIsModelLoading false
          | DataURL url =>
              emit (DrawImage VIDEO_WIDTH VIDEO_HEIGHT);;
              let base64Image := split 44 url !! 1 in
              emit (GenerateContent
                      (mkRequest (c :: k) MODEL_NAME
                         (js "Look at this image. If you see sign language, translate it into a short English sentence. If not, respond with 'No signs'. Only output the translation.")
                         (Some base64Image)));;
              suspend AwaitAnalysis
          end
      | _ => skip
      end
  | _, _, _ => skip
  end.

(** The right-hand side of line 142, [response.text?.trim() || ""]. *)
Definition result_of (text : option jsstring) : jsstring :=
  match trim <$> text with
  | Some (c :: r) => c :: r
  | _ => js ""
  end.

(** [analyzeFrame] from its [await] on, lines 142-157. *)
Definition analyzeFrame_resume (o : remote_outcome) : M unit :=
  match o with
  | Response text =>
      let result := result_of text in
      addLog (js "AI Result: " ++ result)
        (if decide (result = js "No signs") then Info else Success);;
      if decide (result ≠ js "" ∧ result ≠ js "No signs") then
        setTranscription result;;
        time ← toLocaleTimeString;
        setHistory (fun prev => take 10 (mkHistory result time :: prev))
      else skip
  | Throws message => analyzeFrame_catch message
  end;;
  setIsModelLoading false.

(** [startAnalysis], lines 160-166, in a render that sees [cam] as
    [isCameraActive].  A handle returned by [setInterval] is a positive
    number, hence truthy. *)
Definition startAnalysis (cam : bool) (cap : capture) : M unit :=
  w ← get;
  match analysisTimerRef w with
  | Some _ => skip
  | None =>
      setIsAnalyzing true;;
      analyzeFrame cam cap;;
      h ← setInterval cam ANALYSIS_INTERVAL;
      modify (with_analysisTimerRef (fun _ => Some h));;
      addLog (js "Auto-analysis started") Info
  end.

(** The error banner's Dismiss button, line 372. *)
Definition dismissError : M unit := setError None.

(** The console's clear button, line 392. *)
Definition clearLogs : M unit := setLogs (fun _ => []).

(** The header's console toggle, line 204. *)
Definition toggleDebug : M unit :=
  w ← get; setShowDebug (negb (showDebug w)).

(** ** The component as a state machine *)

(** Whatever can happen to the mounted component: a handler is called
    (by a button, whether or not the rendering would offer it), a
    repeating timer fires, or a parked call settles.  Unmounting ends the
    life of the component and is not among them; it is [unmount] below. *)
Inductive op :=
| Mount                                            (* both effects, lines 47-55 and 179-180 *)
| ToggleDebug
| ClearLogs
| DismissError
| StartCamera
| StopCamera
| TestAIConnection
| AnalyzeFrame (cam : bool) (cap : capture)
| StartAnalysis (cam : bool) (cap : capture)
| StopAnalysis
| TimerFires (h : positive) (cap : capture)
| SettleRemote (i : nat) (o : remote_outcome)
| SettleCamera (i : nat) (o : camera_outcome).

(** Settling the [i]-th parked call removes it and resumes it. *)
Definition settle_remote (i : nat) (o : remote_outcome) : M unit :=
  w ← get;
  match pending w !! i with
  | Some AwaitTest =>
      modify (with_pending (delete i));; testAIConnection_resume o
  | Some AwaitAnalysis =>
      modify (with_pending (delete i));; analyzeFrame_resume o
  | _ => skip
  end.

Definition settle_camera (i : nat) (o : camera_outcome) : M unit :=
  w ← get;
  match pending w !! i with
  | Some AwaitUserMedia =>
      modify (with_pending (delete i));; startCamera_resume o
  | _ => skip
  end.

(** A cleared timer never fires; an active one runs its closure. *)
Definition timer_fires (h : positive) (cap : capture) : M unit :=
  w ← get;
  match intervals w !! h with
  | Some t => analyzeFrame (closure_isCameraActive t) cap
  | None => skip
  end.

Definition run_op (o : op) : M unit :=
  match o with
  | Mount => verifyApiKey;; startCamera
  | ToggleDebug => toggleDebug
  | ClearLogs => clearLogs
  | DismissError => dismissError
  | StartCamera => startCamera
  | StopCamera => stopCamera
  | TestAIConnection => testAIConnection
  | AnalyzeFrame cam cap => analyzeFrame cam cap
  | StartAnalysis cam cap => startAnalysis cam cap
  | StopAnalysis => stopAnalysis
  | TimerFires h cap => timer_fires h cap
  | SettleRemote i o => settle_remote i o
  | SettleCamera i o => settle_camera i o
  end.

Definition step (o : op) (w : World) : World := exec (run_op o) w.

(** Operations are run oldest first. *)
Definition run (ops : list op) (w : World) : World :=
  fold_left (fun w o => step o w) ops w.

(** The component after its first render, before its effects run: the
    initial values of lines 25-37 with both elements attached, in an
    environment with the given key and clock. *)
Definition init (key : option jsstring) (clk : nat -> jsstring) : World :=
  {| videoRef := Some (mkVideo None);
     canvasRef := Some Canvas;
     analysisTimerRef := None;
     isAnalyzing := false;
     isCameraActive := false;
     transcription := js "";
     error := None;
     history := [];
     isModelLoading := false;
     logs := [];
     showDebug := true;
     GEMINI_API_KEY := key;
     clock := clk;
     clockReads := 0;
     intervals := ∅;
     nextHandle := 1%positive;
     liveTracks := ∅;
     pending := [];
     effects := [] |}.

(** ** Unmounting

    When the component is unmounted React first detaches the element refs,
    so that [videoRef.current] and [canvasRef.current] are null, and only
    then runs the clean-up returned by the lifecycle effect, lines
    181-184.  No handler of the page is called afterwards; calls that are
    still parked may settle. *)

Definition detachRefs : M unit :=
  modify (with_videoRef (fun _ => None));;
  modify (with_canvasRef (fun _ => None)).

Definition unmount : M unit :=
  detachRefs;;
  stopCamera;;
  stopAnalysis.

(** ** Notions the properties are stated with *)

(** The guard of [analyzeFrame], lines 114-117: both elements attached,
    the camera active in the calling closure, a credential present. *)
Definition guards_pass (cam : bool) (w : World) : bool :=
  match videoRef w, canvasRef w with
  | Some _, Some _ => cam && truthy (GEMINI_API_KEY w)
  | _, _ => false
  end.

(** One analysis cycle: a call fires on a frame and its own remote call
    settles with [o], nothing else happening in between.  The call parks
    itself behind the calls already pending. *)
Definition analysis_cycle (cam : bool) (url : jsstring) (o : remote_outcome) : M unit :=
  w ← get;
  analyzeFrame cam (DataURL url);;
  settle_remote (length (pending w)) o.

(** The rate-limit signature of line 151. *)
Definition rate_limit_signature (message : option jsstring) : bool :=
  match message with
  | Some m => includes m (js "429") || includes m (js "RESOURCE_EXHAUSTED")
  | None => false
  end.

(** The message of line 152. *)
Definition rate_limit_message : jsstring :=
  js "Rate limit exceeded. Auto-analysis has been stopped to save your quota. Please wait a minute before trying again.".

(** The analysis loop is armed when a timer handle is stored. *)
Definition armed (w : World) : bool :=
  match analysisTimerRef w with Some _ => true | None => false end.

(** The last three statements of [startAnalysis], lines 164-165. *)
Definition schedule (cam : bool) : M unit :=
  h ← setInterval cam ANALYSIS_INTERVAL;
  modify (with_analysisTimerRef (fun _ => Some h));;
  addLog (js "Auto-analysis started") Info.

(** The entries an operation itself puts on a list, newest first: what it
    leaves when it starts from the empty list. *)
Definition accepted (o : op) (w : World) : list HistoryEntry :=
  history (step o (with_history (fun _ => []) w)).

(** Likewise for the log. *)
Definition logged (o : op) (w : World) : list LogEntry :=
  logs (step o (with_logs (fun _ => []) w)).

(** Everything ever put on the history, newest first, along a run that
    starts in [w] with [acc] already recorded. *)
Fixpoint history_chronicle (ops : list op) (w : World) (acc : list HistoryEntry)
  : list HistoryEntry :=
  match ops with
  | [] => acc
  | o :: ops' => history_chronicle ops' (step o w) (accepted o w ++ acc)
  end.

(** Everything logged since the console was last cleared, newest first. *)
Fixpoint logs_chronicle (ops : list op) (w : World) (acc : list LogEntry)
  : list LogEntry :=
  match ops with
  | [] => acc
  | o :: ops' =>
      logs_chronicle ops' (step o w)
        (match o with ClearLogs => [] | _ => logged o w ++ acc end)
  end.

(** The bounds of the two rolling lists. *)
Definition bounded (w : World) : Prop :=
  length (history w) ≤ 10 ∧ length (logs w) ≤ 50.

(** The window holds the stored timer and no other. *)
Definition single_timer (w : World) : Prop :=
  match analysisTimerRef w with
  | Some h => ∃ t, intervals w = {[h := t]}
  | None => intervals w = ∅
  end.

(** [isCameraActive] says whether a stream is bound to the video. *)
Definition camera_bound (w : World) : Prop :=
  isCameraActive w = true ↔ ∃ s, videoRef w = Some (mkVideo (Some s)).

(** ** Example runs *)

(** A clock that always reads noon. *)
Definition noon : nat -> jsstring := fun _ => js "12:00:00".

(** The component mounts and the camera is granted a stream of two
    tracks. *)
Definition camera_on_ops : list op :=
  [Mount; SettleCamera 0 (Granted (mkStream [1; 2]%positive))].

Definition camera_on : World := run camera_on_ops (init (Some (js "key")) noon).

(** Then automatic analysis is started on a frame. *)
Definition armed_ops : list op :=
  camera_on_ops ++ [StartAnalysis true (DataURL (js "data:image/jpeg;base64,AAAA"))].

Definition camera_on_armed : World := run armed_ops (init (Some (js "key")) noon).

(** A world with the camera running but no credential. *)
Definition camera_on_no_key : World :=
  run [Mount; SettleCamera 0 (Granted (mkStream [1; 2]%positive))]
    (init None noon).

(** Eleven accepted responses in a row, used by the examples. *)
Definition eleven_cycles : list op :=
  flat_map
    (fun R => [AnalyzeFrame true (DataURL (js "data:image/jpeg;base64,AAAA"));
               SettleRemote 0 (Response (Some R))])
    [js "one"; js "two"; js "three"; js "four"; js "five"; js "six";
     js "seven"; js "eight"; js "nine"; js "ten"; js "eleven"].

(** Fifty log lines: without a key the mount logs two and each probe
    logs two. *)
Definition probes : list op := Mount :: repeat TestAIConnection 24.

(** ** The buttons of the page (the JSX of lines 187-446)

    A click reaches a handler only through a button that the current
    render shows and does not disable; the handler it reaches is the
    closure of that render, which sees the current state. *)

Inductive button :=
| ConsoleButton                       (* line 204 *)
| CameraButton                        (* line 258 *)
| AnalysisButton (cap : capture)      (* lines 270-271 *)
| CaptureButton (cap : capture)       (* lines 288-291 *)
| TestButton                          (* lines 300-301 *)
| EnableCameraButton                  (* lines 312-321 *)
| DismissButton                       (* lines 361, 372 *)
| ClearButton.                        (* lines 381, 392 *)

(** The operation a click on a button starts, if the button is there and
    enabled.  [cap] is what the canvas gives should a frame be captured. *)
Definition onClick (b : button) (w : World) : option op :=
  match b with
  | ConsoleButton => Some ToggleDebug
  | CameraButton => Some (if isCameraActive w then StopCamera else StartCamera)
  | AnalysisButton cap =>
      if negb (isCameraActive w) then None
      else Some (if isAnalyzing w then StopAnalysis
                 else StartAnalysis (isCameraActive w) cap)
  | CaptureButton cap =>
      if negb (isAnalyzing w) && isCameraActive w then
        if isModelLoading w then None
        else Some (AnalyzeFrame (isCameraActive w) cap)
      else None
  | TestButton => if isModelLoading w then None else Some TestAIConnection
  | EnableCameraButton => if negb (isCameraActive w) then Some StartCamera else None
  | DismissButton => if truthy (error w) then Some DismissError else None
  | ClearButton => if showDebug w then Some ClearLogs else None
  end.

(** What can happen to the page once it is mounted: a click, a timer
    firing, a parked call settling. *)
Inductive event :=
| Click (b : button)
| Tick (h : positive) (cap : capture)
| Remote (i : nat) (o : remote_outcome)
| Camera (i : nat) (o : camera_outcome).

Definition event_op (e : event) (w : World) : option op :=
  match e with
  | Click b => onClick b w
  | Tick h cap => Some (TimerFires h cap)
  | Remote i o => Some (SettleRemote i o)
  | Camera i o => Some (SettleCamera i o)
  end.

Definition ui_step (e : event) (w : World) : World :=
  match event_op e w with
  | Some o => step o w
  | None => w
  end.

(** Events are handled oldest first. *)
Definition ui_run (evs : list event) (w : World) : World :=
  fold_left (fun w e => ui_step e w) evs w.

(** The mounted page: the initial render followed by its effects. *)
Definition mounted (key : option jsstring) (clk : nat -> jsstring) : World :=
  step Mount (init key clk).

(** The header's status label, line 217. *)
Definition statusLabel (w : World) : jsstring :=
  if isAnalyzing w then js "Live" else js "Idle".

(** ** Views of the world used by further properties *)

(** The lines written with [console.log], newest first. *)
Definition console (w : World) : list jsstring :=
  omap (fun e => match e with ConsoleLog line => Some line | _ => None end)
       (effects w).

(** The requests sent to the remote model, newest first. *)
Definition requests (w : World) : list Request :=
  omap (fun e => match e with GenerateContent r => Some r | _ => None end)
       (effects w).

(** The console line [addLog] writes for a log entry, line 43. *)
Definition console_line (l : LogEntry) : jsstring :=
  js "[" ++ toUpperCase (log_type l) ++ js "] " ++ log_msg l.

(** The text shown in the transcription panel agrees with the history:
    it is the text of the newest entry, or empty when there is none. *)
Definition shows_newest (w : World) : Prop :=
  transcription w = match history w with
                    | [] => js ""
                    | e :: _ => text e
                    end.

(** A text that may be displayed: trimmed, not empty, not the sentinel. *)
Definition displayable (s : jsstring) : Prop :=
  s ≠ js "" ∧ s ≠ js "No signs" ∧ trim s = s.

(** A string that does not begin with white space. *)
Definition no_lead (s : jsstring) : Prop :=
  match s with
  | c :: _ => isWhiteSpace c = false
  | [] => True
  end.

(** An operation in which the capture of a frame does not itself throw a
    rate-limit message. *)
Definition capture_benign (o : op) : Prop :=
  match o with
  | StartAnalysis _ (CaptureThrows m) => rate_limit_signature m = false
  | _ => True
  end.

(** The timer, if any, is the stored one, it was created while the
    camera was active, and the camera is still active. *)
Definition timer_while_camera (w : World) : Prop :=
  match analysisTimerRef w with
  | Some h => isCameraActive w = true ∧
              intervals w = {[h := mkInterval true ANALYSIS_INTERVAL]}
  | None => intervals w = ∅
  end.

(** An operation as the page can start it: [startAnalysis] only from a
    render in which the camera is active. *)
Definition from_page (o : op) (w : World) : Prop :=
  match o with
  | StartAnalysis cam _ => cam = true ∧ isCameraActive w = true
  | _ => True
  end.

(** The tracks of the bound stream are live. *)
Definition bound_tracks_live (w : World) : Prop :=
  ∀ s t, videoRef w = Some (mkVideo (Some s)) -> t ∈ getTracks s -> t ∈ liveTracks w.

(** Both elements stay attached. *)
Definition attached (w : World) : Prop :=
  is_Some (videoRef w) ∧ canvasRef w = Some Canvas.

(** The prompt of line 135. *)
Definition analysis_prompt : jsstring :=
  js "Look at this image. If you see sign language, translate it into a short English sentence. If not, respond with 'No signs'. Only output the translation.".

(** The timer firing once on each of the given frames. *)
Definition ticks (h : positive) (urls : list jsstring) : list event :=
  (fun url => Tick h (DataURL url)) <$> urls.

(** ** Proof automation *)

Arguments result_of : simpl never.

(** Unfold the handlers down to field updates. *)
Ltac handlers :=
  unfold step, exec, run_op, unmount, detachRefs, analysis_cycle,
    settle_remote, settle_camera, timer_fires, startAnalysis, analyzeFrame_resume, analyzeFrame,
    analyzeFrame_catch, stopCamera, startCamera_resume, startCamera,
    testAIConnection_resume, testAIConnection, stopAnalysis, verifyApiKey,
    addLog, dismissError, clearLogs, toggleDebug, suspend, stopTracks,
    clearInterval, setInterval, emit, toLocaleTimeString, setLogs,
    setHistory, setShowDebug, setIsModelLoading, setError, setTranscription,
    setIsCameraActive, setIsAnalyzing, skip, modify, get, mbind, M_bind,
    mret, M_ret in *.

(** Split on the tests a handler makes, innermost scrutinee first, and
    drop the branches that contradict an earlier test. *)
Ltac crunch :=
  cbn;
  repeat (match goal with
          | |- context [match ?x with _ => _ end] =>
              lazymatch x with
              | context [match _ with _ => _ end] => fail
              | _ => destruct x eqn:?
              end
          end; try (exfalso; congruence); cbn).

(** Close an equation that holds by computation or by an earlier test. *)
Ltac eq_closer := first [reflexivity | assumption | congruence].

(** ** String facts *)

Lemma result_of_Some (R : jsstring) : result_of (Some R) = trim R.
Proof. unfold result_of. cbn. by destruct (trim R). Qed.

Lemma result_of_No_signs : result_of (Some (js "No signs")) = js "No signs".
Proof. reflexivity. Qed.

(** ** The analysis cycle *)

Lemma pending_lookup_last (q : list pending_call) (p : pending_call) :
  (q ++ [p]) !! length q = Some p.
Proof. by apply list_lookup_middle. Qed.

(** C1 (amended). When the guard passes and the response [R], once
    trimmed, is neither empty nor "No signs", one analysis cycle sets the
    transcription to the trimmed [R] and puts the entry made of the trimmed
    [R] and the clock reading taken at the update in front of the history,
    which keeps its ten newest entries; [history[0]] is the new entry. *)
Theorem analysis_cycle_accepts (w : World) (url R : jsstring) :
  guards_pass true w = true ->
  trim R ≠ js "" ->
  trim R ≠ js "No signs" ->
  let w' := exec (analysis_cycle true url (Response (Some R))) w in
  let entry := mkHistory (trim R) (clock w (S (S (clockReads w)))) in
  transcription w' = trim R ∧
  history w' = take 10 (entry :: history w) ∧
  history w' !! 0 = Some entry.
Proof.
  unfold guards_pass. intros Hg Hne Hns.
  handlers. rewrite !result_of_Some.
  destruct (videoRef w), (canvasRef w); try discriminate.
  destruct (GEMINI_API_KEY w) as [[|c k]|]; try discriminate.
  cbn. rewrite pending_lookup_last. cbn.
  destruct (decide (trim R ≠ js "" ∧ trim R ≠ js "No signs")) as [_|n]; [|tauto].
  cbn. auto.
Qed.

Lemma analysis_cycle_accepts_witness :
  let url := js "data:image/jpeg;base64,AAAA" in
  let R := js "Hello, how are you?" in
  let w' := exec (analysis_cycle true url (Response (Some R))) camera_on in
  (guards_pass true camera_on = true ∧ trim R ≠ js "" ∧ trim R ≠ js "No signs") ∧
  transcription w' = R ∧
  history w' !! 0 = Some (mkHistory R (js "12:00:00")).
Proof.
  assert (Hg : guards_pass true camera_on = true) by (vm_compute; reflexivity).
  assert (H1 : trim (js "Hello, how are you?") ≠ js "") by (vm_compute; discriminate).
  assert (H2 : trim (js "Hello, how are you?") ≠ js "No signs") by (vm_compute; discriminate).
  split; [done|].
  destruct (analysis_cycle_accepts camera_on (js "data:image/jpeg;base64,AAAA")
              (js "Hello, how are you?") Hg H1 H2) as (Ht & _ & Hh).
  split; [exact Ht | exact Hh].
Defined.

(** C1 as stated fails on a response with surrounding white space: the
    response " Hi " passes the tests of line 145, and the transcription
    and the history text become "Hi", not " Hi ". *)
Lemma analysis_cycle_trims_response :
  let url := js "data:image/jpeg;base64,AAAA" in
  let R := js " Hi " in
  let w' := exec (analysis_cycle true url (Response (Some R))) camera_on in
  guards_pass true camera_on = true ∧
  trim R ≠ js "" ∧ trim R ≠ js "No signs" ∧
  transcription w' ≠ R ∧
  text <$> history w' !! 0 ≠ Some R ∧
  transcription w' = js "Hi".
Proof. vm_compute. repeat split; try reflexivity; intros H; discriminate H. Qed.

(** C2. When the guard passes and the response is exactly "No signs", one
    analysis cycle leaves the transcription and the history as they were,
    and the response is logged: the newest log line is "AI Result: No
    signs", of type info, on top of the line of the call itself. *)
Theorem analysis_cycle_no_signs (w : World) (url : jsstring) :
  guards_pass true w = true ->
  let w' := exec (analysis_cycle true url (Response (Some (js "No signs")))) w in
  let line := mkLog (clock w (S (clockReads w))) (js "AI Result: " ++ js "No signs") Info in
  let called := mkLog (clock w (clockReads w)) (js "Analyzing frame...") Info in
  transcription w' = transcription w ∧
  history w' = history w ∧
  logs w' !! 0 = Some line ∧
  logs w' = take 50 (line :: take 50 (called :: logs w)).
Proof.
  unfold guards_pass. intros Hg.
  handlers. rewrite !result_of_No_signs.
  destruct (videoRef w), (canvasRef w); try discriminate.
  destruct (GEMINI_API_KEY w) as [[|c k]|]; try discriminate.
  cbn. rewrite pending_lookup_last. cbn.
  destruct (decide (js "No signs" ≠ js "" ∧ js "No signs" ≠ js "No signs"))
    as [[_ n]|_]; [by destruct n|].
  destruct (decide (js "No signs" = js "No signs")) as [_|n]; [|by destruct n].
  cbn. auto.
Qed.

Lemma analysis_cycle_no_signs_witness :
  let url := js "data:image/jpeg;base64,AAAA" in
  let w' := exec (analysis_cycle true url (Response (Some (js "No signs")))) camera_on in
  guards_pass true camera_on = true ∧
  transcription w' = transcription camera_on ∧
  history w' = history camera_on ∧
  logs w' !! 0 = Some (mkLog (js "12:00:00") (js "AI Result: No signs") Info).
Proof.
  assert (Hg : guards_pass true camera_on = true) by (vm_compute; reflexivity).
  split; [exact Hg|].
  destruct (analysis_cycle_no_signs camera_on (js "data:image/jpeg;base64,AAAA") Hg)
    as (Ht & Hh & Hl & _).
  exact (conj Ht (conj Hh Hl)).
Defined.

(** ** Errors of an analysis call *)

(** What the [catch] block does to an armed loop. *)
Lemma analyzeFrame_catch_policy (w : World) (h : positive) (message : option jsstring) :
  analysisTimerRef w = Some h ->
  let w' := exec (analyzeFrame_catch message) w in
  let line := mkLog (clock w (clockReads w))
                (js "Analysis failed: " ++ interpolate message) Error in
  if rate_limit_signature message then
    analysisTimerRef w' = None ∧ intervals w' = delete h (intervals w) ∧
    isAnalyzing w' = false ∧ error w' = Some rate_limit_message ∧
    logs w' !! 1 = Some line
  else
    analysisTimerRef w' = Some h ∧ intervals w' = intervals w ∧
    isAnalyzing w' = isAnalyzing w ∧ error w' = error w ∧
    logs w' !! 0 = Some line.
Proof.
  intros Hh. unfold rate_limit_signature. handlers.
  destruct message as [m|]; cbn;
    [destruct (includes m (js "429") || includes m (js "RESOURCE_EXHAUSTED"))|];
    cbn; rewrite ?Hh; cbn; auto.
Qed.

(** C3. An analysis call parked at its [await] throws while the loop is
    armed.  If the message contains "429" or "RESOURCE_EXHAUSTED", the
    loop becomes idle: the stored handle is cleared, its timer is removed
    from the window, [isAnalyzing] is false, and the error message is set
    (non-null).  For every other thrown value the error is logged with
    type error and the handle, the timer table, [isAnalyzing] and the
    error message are as before: the loop stays armed. *)
Theorem analysis_error_policy (w : World) (i : nat) (h : positive)
    (message : option jsstring) :
  pending w !! i = Some AwaitAnalysis ->
  analysisTimerRef w = Some h ->
  let w' := step (SettleRemote i (Throws message)) w in
  let line := mkLog (clock w (clockReads w))
                (js "Analysis failed: " ++ interpolate message) Error in
  if rate_limit_signature message then
    armed w' = false ∧ analysisTimerRef w' = None ∧
    intervals w' !! h = None ∧ intervals w' = delete h (intervals w) ∧
    isAnalyzing w' = false ∧
    error w' = Some rate_limit_message ∧ error w' ≠ None ∧
    logs w' !! 1 = Some line
  else
    armed w' = true ∧ analysisTimerRef w' = Some h ∧
    intervals w' = intervals w ∧ isAnalyzing w' = isAnalyzing w ∧
    error w' = error w ∧
    logs w' !! 0 = Some line.
Proof.
  intros Hp Hh.
  pose proof (analyzeFrame_catch_policy (with_pending (delete i) w) h message Hh) as Hc.
  unfold step, run_op, settle_remote, exec, armed in *.
  unfold get, mbind, M_bind in *. cbn in *. rewrite Hp. cbn.
  unfold analyzeFrame_resume, setIsModelLoading, modify, mbind, M_bind. cbn.
  destruct (analyzeFrame_catch message (with_pending (delete i) w)) as [[] w1].
  cbn in *. destruct (rate_limit_signature message).
  - destruct Hc as (H1 & H2 & H3 & H4 & H5). rewrite H1, H2, H3, H4.
    repeat (split; [done|]). split; [apply lookup_delete_eq|].
    repeat (split; [done|]). exact H5.
  - destruct Hc as (H1 & H2 & H3 & H4 & H5). rewrite H1, H2, H3, H4. done.
Qed.

Lemma analysis_error_policy_witness :
  let w := camera_on_armed in
  let limited := step (SettleRemote 0 (Throws (Some (js "got status: 429 Too Many Requests")))) w in
  let other := step (SettleRemote 0 (Throws (Some (js "fetch failed")))) w in
  (pending w !! 0 = Some AwaitAnalysis ∧ analysisTimerRef w = Some 1%positive) ∧
  (armed limited = false ∧ isAnalyzing limited = false ∧ error limited ≠ None) ∧
  (armed other = true ∧ intervals other = intervals w).
Proof.
  assert (Hp : pending camera_on_armed !! 0 = Some AwaitAnalysis) by (vm_compute; reflexivity).
  assert (Hh : analysisTimerRef camera_on_armed = Some 1%positive) by (vm_compute; reflexivity).
  split; [exact (conj Hp Hh)|].
  pose proof (analysis_error_policy camera_on_armed 0 1%positive
                (Some (js "got status: 429 Too Many Requests")) Hp Hh) as H1.
  pose proof (analysis_error_policy camera_on_armed 0 1%positive
                (Some (js "fetch failed")) Hp Hh) as H2.
  change (rate_limit_signature (Some (js "got status: 429 Too Many Requests"))) with true in H1.
  change (rate_limit_signature (Some (js "fetch failed"))) with false in H2.
  cbv beta iota zeta in H1, H2.
  destruct H1 as (A1 & _ & _ & _ & A2 & _ & A3 & _).
  destruct H2 as (B1 & _ & B2 & _).
  exact (conj (conj A1 (conj A2 A3)) (conj B1 B2)).
Defined.

(** The same policy applies when the throw happens while the frame is
    captured, before the [await]. *)
Lemma capture_error_policy (w : World) (cam : bool) (h : positive)
    (message : option jsstring) :
  guards_pass cam w = true ->
  analysisTimerRef w = Some h ->
  let w' := exec (analyzeFrame cam (CaptureThrows message)) w in
  if rate_limit_signature message then
    armed w' = false ∧ intervals w' = delete h (intervals w) ∧
    isAnalyzing w' = false ∧ error w' = Some rate_limit_message
  else
    armed w' = true ∧ intervals w' = intervals w ∧
    isAnalyzing w' = isAnalyzing w ∧ error w' = error w.
Proof.
  unfold guards_pass, rate_limit_signature, armed. intros Hg Hh. handlers.
  destruct (videoRef w), (canvasRef w), cam; try discriminate.
  destruct (GEMINI_API_KEY w) as [[|c k]|]; try discriminate.
  destruct message as [m|]; cbn;
    [destruct (includes m (js "429") || includes m (js "RESOURCE_EXHAUSTED"))|];
    cbn; rewrite ?Hh; cbn; auto.
Qed.

(** ** Dismissing the error *)

(** C9. In a state with an error message, the Dismiss button sets the
    error to null and changes nothing else; in particular the history, the
    log and the transcription are as before. *)
Theorem dismiss_error_frame (w : World) :
  error w ≠ None ->
  let w' := step DismissError w in
  error w' = None ∧
  history w' = history w ∧ logs w' = logs w ∧ transcription w' = transcription w ∧
  w' = with_error (fun _ => None) w.
Proof. intros _. cbn. auto. Qed.

Lemma dismiss_error_frame_witness :
  let w := step (SettleRemote 0 (Throws (Some (js "quota: RESOURCE_EXHAUSTED")))) camera_on_armed in
  let w' := step DismissError w in
  error w ≠ None ∧
  error w' = None ∧
  history w' = history w ∧ logs w' = logs w ∧ transcription w' = transcription w.
Proof.
  assert (He : error (step (SettleRemote 0 (Throws (Some (js "quota: RESOURCE_EXHAUSTED"))))
                        camera_on_armed) ≠ None) by (vm_compute; discriminate).
  split; [exact He|].
  destruct (dismiss_error_frame _ He) as (H1 & H2 & H3 & H4 & _).
  exact (conj H1 (conj H2 (conj H3 H4))).
Defined.

(** ** The guard of an analysis call *)

Lemma analyzeFrame_guarded (w : World) (cam : bool) (cap : capture) :
  guards_pass cam w = false -> analyzeFrame cam cap w = (tt, w).
Proof.
  unfold guards_pass, analyzeFrame, skip, get, mbind, M_bind, mret, M_ret.
  destruct (videoRef w), (canvasRef w), cam; try reflexivity.
  destruct (GEMINI_API_KEY w) as [[|c k]|]; try reflexivity.
  discriminate.
Qed.

(** C7. An analysis call whose closure sees the camera inactive, or that
    finds no credential (or an element detached), is a no-op: the guard
    returns before anything is done, so no frame is captured, no remote
    call is made and the world is left as it was.  A missing credential is
    logged as a generic error: the check run on mount logs it with type
    error and leaves the analysis loop as it is, and the connectivity
    probe logs it with type error as well, without a remote call. *)
Theorem analyzeFrame_guard_and_missing_key (w : World) (cam : bool) (cap : capture) :
  (guards_pass cam w = false ->
   analyzeFrame cam cap w = (tt, w) ∧
   effects (exec (analyzeFrame cam cap) w) = effects w ∧
   pending (exec (analyzeFrame cam cap) w) = pending w ∧
   logs (exec (analyzeFrame cam cap) w) = logs w) ∧
  (truthy (GEMINI_API_KEY w) = false ->
   let missing := mkLog (clock w (clockReads w))
                    (js "API Key is missing from environment!") Error in
   guards_pass cam w = false ∧
   logs (exec verifyApiKey w) = take 50 (missing :: logs w) ∧
   logs (step Mount w) !! 1 = Some missing ∧
   analysisTimerRef (step Mount w) = analysisTimerRef w ∧
   intervals (step Mount w) = intervals w ∧
   isAnalyzing (step Mount w) = isAnalyzing w ∧
   logs (exec testAIConnection w) !! 0 =
     Some (mkLog (clock w (S (clockReads w))) (js "AI Test Failed: No API Key") Error) ∧
   pending (exec testAIConnection w) = pending w).
Proof.
  split.
  { intros Hg. unfold exec. by rewrite (analyzeFrame_guarded w cam cap Hg). }
  intros Hk. unfold guards_pass. rewrite Hk, andb_false_r.
  split; [by destruct (videoRef w), (canvasRef w)|].
  handlers. cbn. rewrite Hk.
  destruct (GEMINI_API_KEY w) as [[|c k]|]; try discriminate; cbn; auto 10.
Qed.

Lemma analyzeFrame_guard_and_missing_key_witness :
  let w := camera_on_no_key in
  let cap := DataURL (js "data:image/jpeg;base64,AAAA") in
  (isCameraActive w = true ∧ guards_pass true w = false ∧
   truthy (GEMINI_API_KEY w) = false ∧ truthy (GEMINI_API_KEY (init None noon)) = false) ∧
  analyzeFrame true cap w = (tt, w) ∧
  logs (step Mount (init None noon)) !! 1 =
    Some (mkLog (js "12:00:00") (js "API Key is missing from environment!") Error) ∧
  log_type <$> logs (exec testAIConnection w) !! 0 = Some Error.
Proof.
  assert (Hc : isCameraActive camera_on_no_key = true) by (vm_compute; reflexivity).
  assert (Hg : guards_pass true camera_on_no_key = false) by (vm_compute; reflexivity).
  assert (Hk : truthy (GEMINI_API_KEY camera_on_no_key) = false) by (vm_compute; reflexivity).
  assert (Hk0 : truthy (GEMINI_API_KEY (init None noon)) = false) by reflexivity.
  split; [exact (conj Hc (conj Hg (conj Hk Hk0)))|].
  destruct (analyzeFrame_guard_and_missing_key camera_on_no_key true
              (DataURL (js "data:image/jpeg;base64,AAAA"))) as [H1 H2].
  destruct (H2 Hk) as (_ & _ & _ & _ & _ & _ & H5 & _).
  destruct (analyzeFrame_guard_and_missing_key (init None noon) true
              (DataURL (js "data:image/jpeg;base64,AAAA"))) as [_ H3].
  destruct (H3 Hk0) as (_ & _ & H4 & _).
  split; [exact (proj1 (H1 Hg))|]. split; [exact H4|].
  cbv zeta. by rewrite H5.
Defined.

(** ** The model-loading flag *)

(** C10. A call of [analyzeFrame] that passes its guards either ends at
    once (no drawing context, or a throw while capturing) with
    [isModelLoading] false, or parks at its [await] with the flag true;
    whenever a parked call settles, by a response or by a throw, the flag
    is false when it ends.  The same holds for [testAIConnection], which
    has no guard: it ends at once when the key is missing and parks
    otherwise. *)
Theorem model_loading_reset (w : World) :
  (∀ cam cap, guards_pass cam w = true ->
     let w' := exec (analyzeFrame cam cap) w in
     match cap with
     | DataURL _ => isModelLoading w' = true ∧ pending w' = pending w ++ [AwaitAnalysis]
     | _ => isModelLoading w' = false ∧ pending w' = pending w
     end) ∧
  (∀ o, isModelLoading (exec (analyzeFrame_resume o) w) = false) ∧
  (let w' := exec testAIConnection w in
   if truthy (GEMINI_API_KEY w)
   then isModelLoading w' = true ∧ pending w' = pending w ++ [AwaitTest]
   else isModelLoading w' = false ∧ pending w' = pending w) ∧
  (∀ o, isModelLoading (exec (testAIConnection_resume o) w) = false) ∧
  (∀ i o, is_Some (pending w !! i) -> pending w !! i ≠ Some AwaitUserMedia ->
     isModelLoading (step (SettleRemote i o) w) = false).
Proof.
  split; [|split; [|split; [|split]]].
  - unfold guards_pass. intros cam cap Hg. handlers.
    destruct (videoRef w), (canvasRef w), cam; try discriminate.
    destruct (GEMINI_API_KEY w) as [[|c k]|]; try discriminate.
    destruct cap as [|m|url]; cbn; auto.
    destruct m as [m|]; cbn; auto.
    destruct (includes m (js "429") || includes m (js "RESOURCE_EXHAUSTED")); cbn; auto.
    destruct (analysisTimerRef w); cbn; auto.
  - intros o. handlers. destruct o as [text|m]; cbn.
    + destruct (decide _); reflexivity.
    + destruct m as [m|]; cbn; auto.
      destruct (includes m (js "429") || includes m (js "RESOURCE_EXHAUSTED")); cbn; auto.
      destruct (analysisTimerRef w); reflexivity.
  - handlers. cbn. destruct (GEMINI_API_KEY w) as [[|c k]|]; cbn; auto.
  - intros o. handlers. destruct o; reflexivity.
  - intros i o [p Hp] Hne. handlers. cbn. rewrite Hp.
    destruct p; [by destruct Hne| |].
    + destruct o; reflexivity.
    + destruct o as [text|m]; cbn.
      * destruct (decide _); reflexivity.
      * destruct m as [m|]; cbn; auto.
        destruct (includes m (js "429") || includes m (js "RESOURCE_EXHAUSTED")); cbn; auto.
        destruct (analysisTimerRef w); reflexivity.
Qed.

Lemma model_loading_reset_witness :
  let w := camera_on in
  let url := js "data:image/jpeg;base64,AAAA" in
  let parked := exec (analyzeFrame true (DataURL url)) w in
  guards_pass true w = true ∧
  isModelLoading parked = true ∧
  isModelLoading (exec (analyzeFrame true NoContext) w) = false ∧
  isModelLoading (step (SettleRemote 0 (Throws (Some (js "fetch failed")))) parked) = false.
Proof.
  assert (Hg : guards_pass true camera_on = true) by (vm_compute; reflexivity).
  split; [exact Hg|].
  destruct (model_loading_reset camera_on) as (H1 & _).
  pose proof (H1 true (DataURL (js "data:image/jpeg;base64,AAAA")) Hg) as [A _].
  pose proof (H1 true NoContext Hg) as [B _].
  destruct (model_loading_reset
              (exec (analyzeFrame true (DataURL (js "data:image/jpeg;base64,AAAA"))) camera_on))
    as (_ & _ & _ & _ & H5).
  assert (C := H5 0 (Throws (Some (js "fetch failed")))
                 ltac:(vm_compute; eexists; reflexivity)
                 ltac:(vm_compute; discriminate)).
  exact (conj A (conj B C)).
Defined.

(** ** Runs of the state machine *)

Lemma run_snoc (ops : list op) (o : op) (w : World) :
  run (ops ++ [o]) w = step o (run ops w).
Proof. unfold run. by rewrite fold_left_app. Qed.

(** Induction over the worlds the component can reach. *)
Lemma run_ind (P : World -> Prop) :
  (∀ key clk, P (init key clk)) ->
  (∀ o w, P w -> P (step o w)) ->
  ∀ key clk ops, P (run ops (init key clk)).
Proof.
  intros Hinit Hstep key clk ops.
  induction ops as [|o ops IH] using rev_ind; [apply Hinit|].
  rewrite run_snoc. by apply Hstep.
Qed.

(** ** The two rolling lists *)

Section Rolling.
Context {A : Type}.
Implicit Types (l es : list A) (n : nat).

Lemma take_app_take_le n m es l :
  n ≤ m -> take n (es ++ take m l) = take n (es ++ l).
Proof.
  revert n. induction es as [|e es IH]; intros n Hn; cbn.
  - rewrite take_take. f_equal. lia.
  - destruct n as [|n]; [reflexivity|]. cbn. f_equal. apply IH. lia.
Qed.

Lemma take_app_take n es l : take n (es ++ take n l) = take n (es ++ l).
Proof. by apply take_app_take_le. Qed.

(** Pushing onto a list that is full drops its last element. *)
Lemma push_full n e l :
  length l = S n -> ∃ kept oldest, l = kept ++ [oldest] ∧ take (S n) (e :: l) = e :: kept.
Proof.
  intros Hl. destruct l as [|x l] using rev_ind; [discriminate|].
  exists l, x. split; [reflexivity|]. cbn. f_equal.
  rewrite length_app in Hl. cbn in Hl.
  rewrite take_app_le by lia. apply take_ge. lia.
Qed.

Lemma push_room n e l : length l < n -> take n (e :: l) = e :: l.
Proof. intros Hl. apply take_ge. cbn. lia. Qed.

End Rolling.

(** What one operation does to the history: it puts its own entries, at
    most one, in front and keeps the ten newest. *)
Lemma history_step (o : op) (w : World) :
  length (history w) ≤ 10 ->
  history (step o w) = take 10 (accepted o w ++ history w) ∧
  length (accepted o w) ≤ 1.
Proof.
  intros Hb. unfold accepted.
  destruct o; handlers; crunch.
  all: split; [first [reflexivity | symmetry; apply take_ge; lia] | lia].
Qed.

(** What one operation does to the log: it clears it, or puts its own
    lines in front and keeps the fifty newest. *)
Lemma logs_step (o : op) (w : World) :
  length (logs w) ≤ 50 ->
  logs (step o w) =
    match o with ClearLogs => [] | _ => take 50 (logged o w ++ logs w) end ∧
  length (logged o w) ≤ 4.
Proof.
  intros Hb. unfold logged.
  destruct o; handlers; crunch; rewrite ?take_take; cbn.
  all: split; [first [reflexivity | symmetry; apply take_ge; lia] | lia].
Qed.

(** What one operation does to the timer: nothing, or it clears the
    stored one, or, with none stored, it creates one and stores it. *)
Lemma timer_step (o : op) (w : World) :
  (analysisTimerRef (step o w) = analysisTimerRef w ∧
   intervals (step o w) = intervals w) ∨
  (∃ h, analysisTimerRef w = Some h ∧ analysisTimerRef (step o w) = None ∧
        intervals (step o w) = delete h (intervals w)) ∨
  (∃ t, analysisTimerRef w = None ∧
        analysisTimerRef (step o w) = Some (nextHandle w) ∧
        intervals (step o w) = <[nextHandle w := t]> (intervals w)).
Proof.
  destruct o; handlers; crunch.
  all: first [ left; split; eq_closer
             | right; left; eexists; split; [|split]; eq_closer
             | right; right; eexists; split; [|split]; eq_closer ].
Qed.

(** What one operation does to the camera: nothing, or it binds a stream
    and sets the flag, or it unbinds the stream and clears the flag. *)
Lemma camera_step (o : op) (w : World) :
  (isCameraActive (step o w) = isCameraActive w ∧ videoRef (step o w) = videoRef w) ∨
  (∃ s, isCameraActive (step o w) = true ∧
        videoRef (step o w) = Some (mkVideo (Some s))) ∨
  (isCameraActive (step o w) = false ∧ videoRef (step o w) = Some (mkVideo None)).
Proof.
  destruct o; handlers; crunch.
  all: first [ left; split; eq_closer
             | right; left; eexists; split; eq_closer
             | right; right; split; eq_closer ].
Qed.

(** ** Invariants *)

Lemma bounded_step (o : op) (w : World) : bounded w -> bounded (step o w).
Proof.
  intros [Hh Hl]. split.
  - destruct (history_step o w Hh) as [-> _]. rewrite length_take. lia.
  - destruct (logs_step o w Hl) as [-> _].
    destruct o; rewrite ?length_take; first [lia | cbn; lia].
Qed.

Lemma single_timer_step (o : op) (w : World) :
  single_timer w -> single_timer (step o w).
Proof.
  unfold single_timer. intros Hw.
  destruct (timer_step o w) as [[-> ->]|[(h & Hh & -> & ->)|(t & Hn & -> & ->)]].
  - exact Hw.
  - rewrite Hh in Hw. destruct Hw as [t ->]. apply delete_singleton_eq.
  - rewrite Hn in Hw. rewrite Hw. exists t. apply insert_empty.
Qed.

Lemma camera_bound_step (o : op) (w : World) :
  camera_bound w -> camera_bound (step o w).
Proof.
  unfold camera_bound. intros Hw.
  destruct (camera_step o w) as [[-> ->]|[(s & -> & ->)|[-> ->]]].
  - exact Hw.
  - split; [by exists s|reflexivity].
  - split; [discriminate|]. intros [s Hs]. discriminate.
Qed.

Lemma reachable_bounded key clk ops : bounded (run ops (init key clk)).
Proof.
  apply run_ind with (P := bounded); [|exact bounded_step].
  intros; split; cbn; lia.
Qed.

Lemma reachable_single_timer key clk ops : single_timer (run ops (init key clk)).
Proof.
  apply run_ind with (P := single_timer); [|exact single_timer_step].
  reflexivity.
Qed.

Lemma reachable_camera_bound key clk ops : camera_bound (run ops (init key clk)).
Proof.
  apply run_ind with (P := camera_bound); [|exact camera_bound_step].
  intros; split; [discriminate|]. intros [s Hs]. discriminate.
Qed.

(** ** The rolling lists along a run *)

Lemma run_cons (o : op) (ops : list op) (w : World) :
  run (o :: ops) w = run ops (step o w).
Proof. reflexivity. Qed.

Lemma history_run (ops : list op) (w : World) (acc : list HistoryEntry) :
  history w = take 10 acc ->
  history (run ops w) = take 10 (history_chronicle ops w acc).
Proof.
  revert w acc. induction ops as [|o ops IH]; intros w acc Hw; [exact Hw|].
  rewrite run_cons. cbn [history_chronicle]. apply IH.
  assert (Hb : length (history w) ≤ 10) by (rewrite Hw, length_take; lia).
  destruct (history_step o w Hb) as [-> _].
  rewrite Hw. apply take_app_take.
Qed.

Lemma logs_run (ops : list op) (w : World) (acc : list LogEntry) :
  logs w = take 50 acc ->
  logs (run ops w) = take 50 (logs_chronicle ops w acc).
Proof.
  revert w acc. induction ops as [|o ops IH]; intros w acc Hw; [exact Hw|].
  rewrite run_cons. cbn [logs_chronicle]. apply IH.
  assert (Hb : length (logs w) ≤ 50) by (rewrite Hw, length_take; lia).
  destruct (logs_step o w Hb) as [-> _].
  destruct o; try (rewrite Hw; apply take_app_take). reflexivity.
Qed.

(** C4. Along every run from the initial state the history holds at most
    ten entries and is the ten newest of everything accepted so far, newest
    first.  An operation leaves it alone or puts one new entry at index 0
    in front of the old ones; with room left nothing is lost, and when the
    list is full its last entry, the oldest, is the one dropped. *)
Theorem history_rolling (key : option jsstring) (clk : nat -> jsstring) (ops : list op) :
  let w := run ops (init key clk) in
  length (history w) ≤ 10 ∧
  history w = take 10 (history_chronicle ops (init key clk) []) ∧
  ∀ o,
    history (step o w) = history w ∨
    ∃ e,
      history (step o w) = take 10 (e :: history w) ∧
      history (step o w) !! 0 = Some e ∧
      (length (history w) < 10 -> history (step o w) = e :: history w) ∧
      (length (history w) = 10 ->
       ∃ kept oldest, history w = kept ++ [oldest] ∧ history (step o w) = e :: kept).
Proof.
  intros w. destruct (reachable_bounded key clk ops) as [Hb _]. fold w in Hb.
  split; [exact Hb|]. split; [by apply history_run|].
  intros o. destruct (history_step o w Hb) as [Hs Ha].
  destruct (accepted o w) as [|e [|e' es]]; [| |cbn in Ha; lia].
  - left. rewrite Hs. apply take_ge. cbn. lia.
  - right. exists e. cbn [app] in Hs. rewrite Hs.
    split; [reflexivity|]. split; [reflexivity|]. split.
    + intros Hlt. by apply push_room.
    + intros Hfull. destruct (push_full 9 e (history w) Hfull) as (kept & oldest & H1 & H2).
      by exists kept, oldest.
Qed.

Lemma history_rolling_witness :
  let w := run (camera_on_ops ++ removelast eleven_cycles) (init (Some (js "key")) noon) in
  let o := SettleRemote 0 (Response (Some (js "eleven"))) in
  length (history w) = 10 ∧
  text <$> history w !! 9 = Some (js "one") ∧
  length (history (step o w)) = 10 ∧
  text <$> history (step o w) !! 0 = Some (js "eleven") ∧
  text <$> history (step o w) !! 9 = Some (js "two").
Proof.
  pose proof (history_rolling (Some (js "key")) noon
                (camera_on_ops ++ removelast eleven_cycles)) as (_ & _ & H).
  specialize (H (SettleRemote 0 (Response (Some (js "eleven"))))).
  destruct H as [H|(e & _ & _ & _ & H)].
  - exfalso. vm_compute in H. discriminate H.
  - vm_compute. repeat split.
Defined.

(** C8. Along every run from the initial state the log holds at most
    fifty lines and is the fifty newest of everything logged since it was
    last cleared, newest first.  [addLog] puts its line at index 0 in
    front of the old ones; with room left nothing is lost, and when the
    log is full its last line, the oldest, is the one dropped.  Every
    operation either clears the log or pushes its own lines in this way. *)
Theorem logs_rolling (key : option jsstring) (clk : nat -> jsstring) (ops : list op) :
  let w := run ops (init key clk) in
  length (logs w) ≤ 50 ∧
  logs w = take 50 (logs_chronicle ops (init key clk) []) ∧
  (∀ msg type,
     let w' := exec (addLog msg type) w in
     let line := mkLog (clock w (clockReads w)) msg type in
     logs w' = take 50 (line :: logs w) ∧
     logs w' !! 0 = Some line ∧
     (length (logs w) < 50 -> logs w' = line :: logs w) ∧
     (length (logs w) = 50 ->
      ∃ kept oldest, logs w = kept ++ [oldest] ∧ logs w' = line :: kept)) ∧
  (∀ o, logs (step o w) =
          match o with ClearLogs => [] | _ => take 50 (logged o w ++ logs w) end).
Proof.
  intros w. destruct (reachable_bounded key clk ops) as [_ Hb]. fold w in Hb.
  split; [exact Hb|]. split; [by apply logs_run|]. split.
  - intros msg type.
    change (logs (exec (addLog msg type) w))
      with (take 50 (mkLog (clock w (clockReads w)) msg type :: logs w)).
    cbv zeta. split; [reflexivity|]. split; [reflexivity|]. split.
    + intros Hlt. by apply push_room.
    + intros Hfull.
      destruct (push_full 49 (mkLog (clock w (clockReads w)) msg type) (logs w) Hfull)
        as (kept & oldest & H1 & H2).
      by exists kept, oldest.
  - intros o. by destruct (logs_step o w Hb) as [-> _].
Qed.

Lemma logs_rolling_witness :
  let w := run probes (init None noon) in
  let w' := exec (addLog (js "one more") Info) w in
  length (logs w) = 50 ∧
  log_msg <$> logs w !! 49 = Some (js "API Key is missing from environment!") ∧
  length (logs w') = 50 ∧
  log_msg <$> logs w' !! 0 = Some (js "one more") ∧
  log_msg <$> logs w' !! 49 = Some (js "Starting camera...").
Proof.
  pose proof (logs_rolling None noon probes) as (_ & _ & H & _).
  specialize (H (js "one more") Info). destruct H as (_ & _ & _ & H).
  destruct H as (kept & oldest & H1 & H2); [vm_compute; reflexivity|].
  vm_compute. repeat split.
Defined.

(** ** Arming and disarming the loop *)

Lemma startAnalysis_armed (w : World) (cam : bool) (cap : capture) :
  armed w = true -> startAnalysis cam cap w = (tt, w).
Proof.
  unfold armed, startAnalysis, get, skip, mbind, M_bind.
  by destruct (analysisTimerRef w).
Qed.

Lemma startAnalysis_idle (w : World) (cam : bool) (cap : capture) :
  armed w = false ->
  exec (startAnalysis cam cap) w =
  exec (schedule cam) (exec (analyzeFrame cam cap) (with_isAnalyzing (fun _ => true) w)).
Proof.
  unfold armed, startAnalysis, schedule, exec, get, setIsAnalyzing, modify, mbind, M_bind.
  destruct (analysisTimerRef w); [discriminate|]. intros _.
  by destruct (analyzeFrame cam cap (with_isAnalyzing (λ _ : bool, true) w)) as [[] w1].
Qed.

Lemma analyzeFrame_keeps_timer (w : World) (cam : bool) (cap : capture) :
  armed w = false ->
  let w' := exec (analyzeFrame cam cap) w in
  analysisTimerRef w' = None ∧ intervals w' = intervals w ∧ nextHandle w' = nextHandle w.
Proof.
  unfold armed. destruct (analysisTimerRef w) eqn:Hr; [discriminate|]. intros _.
  handlers. crunch; auto.
Qed.

Lemma analyzeFrame_parks (w : World) (cam : bool) (url : jsstring) :
  guards_pass cam w = true ->
  pending (exec (analyzeFrame cam (DataURL url)) w) = pending w ++ [AwaitAnalysis].
Proof.
  unfold guards_pass. intros Hg. handlers.
  destruct (videoRef w), (canvasRef w), cam; try discriminate.
  by destruct (GEMINI_API_KEY w) as [[|c k]|].
Qed.

(** C5. With a timer handle stored, [startAnalysis] does nothing: no
    timer is created, no call fires, the world is unchanged.  From idle it
    sets [isAnalyzing], fires one call of [analyzeFrame] at once and then
    schedules the repeating timer, whose handle it stores and whose every
    firing runs [analyzeFrame] again; a call that passes the guard on a
    captured frame is parked exactly once.  Along every run from the
    initial state the window holds the stored timer and no other, hence
    at most one. *)
Theorem startAnalysis_single_timer :
  (∀ w cam cap,
     if armed w then startAnalysis cam cap w = (tt, w)
     else
       let w1 := exec (analyzeFrame cam cap) (with_isAnalyzing (fun _ => true) w) in
       let w' := exec (startAnalysis cam cap) w in
       w' = exec (schedule cam) w1 ∧
       analysisTimerRef w' = Some (nextHandle w) ∧
       intervals w' = <[nextHandle w := mkInterval cam ANALYSIS_INTERVAL]> (intervals w) ∧
       pending w' = pending w1 ∧
       (∀ url, guards_pass cam w = true -> cap = DataURL url ->
          pending w' = pending w ++ [AwaitAnalysis] ∧ isAnalyzing w' = true) ∧
       (∀ cap', step (TimerFires (nextHandle w) cap') w' = exec (analyzeFrame cam cap') w')) ∧
  (∀ key clk ops,
     let w := run ops (init key clk) in
     single_timer w ∧ size (intervals w) ≤ 1 ∧
     (armed w = false -> intervals w = ∅)).
Proof.
  split.
  - intros w cam cap. destruct (armed w) eqn:Ha; [by apply startAnalysis_armed|].
    cbv zeta. rewrite (startAnalysis_idle w cam cap Ha).
    set (w0 := with_isAnalyzing (fun _ => true) w).
    assert (Ha0 : armed w0 = false) by exact Ha.
    destruct (analyzeFrame_keeps_timer w0 cam cap Ha0) as (Hr & Hi & Hn).
    assert (Hpark : ∀ url, guards_pass cam w = true -> cap = DataURL url ->
              pending (exec (analyzeFrame cam cap) w0) = pending w ++ [AwaitAnalysis] ∧
              isAnalyzing (exec (analyzeFrame cam cap) w0) = true).
    { intros url Hg ->. split; [by rewrite analyzeFrame_parks|].
      unfold guards_pass in Hg. unfold w0. handlers.
      change (videoRef (with_isAnalyzing (fun _ => true) w)) with (videoRef w).
      change (canvasRef (with_isAnalyzing (fun _ => true) w)) with (canvasRef w).
      change (GEMINI_API_KEY (with_isAnalyzing (fun _ => true) w)) with (GEMINI_API_KEY w).
      destruct (videoRef w), (canvasRef w), cam; try discriminate.
      by destruct (GEMINI_API_KEY w) as [[|c k]|]. }
    generalize dependent (exec (analyzeFrame cam cap) w0). intros w1 Hr Hi Hn Hpark.
    split; [reflexivity|]. unfold schedule. handlers. cbn. rewrite Hn, Hi.
    split; [reflexivity|]. split; [reflexivity|]. split; [reflexivity|].
    split; [exact Hpark|].
    intros cap'. by rewrite lookup_insert_eq.
  - intros key clk ops w. pose proof (reachable_single_timer key clk ops) as Hs.
    fold w in Hs. split; [exact Hs|]. unfold single_timer, armed in *.
    destruct (analysisTimerRef w).
    + destruct Hs as [t ->]. rewrite map_size_singleton. split; [lia|discriminate].
    + rewrite Hs, map_size_empty. split; [lia|done].
Qed.

Lemma startAnalysis_single_timer_witness :
  let cap := DataURL (js "data:image/jpeg;base64,AAAA") in
  let w' := exec (startAnalysis true cap) camera_on in
  (armed camera_on = false ∧ guards_pass true camera_on = true) ∧
  (pending w' = pending camera_on ++ [AwaitAnalysis] ∧ isAnalyzing w' = true) ∧
  (armed w' = true ∧ startAnalysis true cap w' = (tt, w')) ∧
  size (intervals (run (armed_ops ++ [StartAnalysis true cap]) (init (Some (js "key")) noon))) ≤ 1.
Proof.
  destruct startAnalysis_single_timer as [H1 H2].
  assert (Ha : armed camera_on = false) by (vm_compute; reflexivity).
  assert (Hg : guards_pass true camera_on = true) by (vm_compute; reflexivity).
  split; [exact (conj Ha Hg)|].
  pose proof (H1 camera_on true (DataURL (js "data:image/jpeg;base64,AAAA"))) as A.
  rewrite Ha in A. cbv zeta in A. destruct A as (_ & _ & _ & _ & A & _).
  split; [exact (A _ Hg eq_refl)|].
  pose proof (H1 (exec (startAnalysis true (DataURL (js "data:image/jpeg;base64,AAAA")))
                    camera_on) true (DataURL (js "data:image/jpeg;base64,AAAA"))) as B.
  assert (Hb : armed (exec (startAnalysis true (DataURL (js "data:image/jpeg;base64,AAAA")))
                        camera_on) = true) by (vm_compute; reflexivity).
  rewrite Hb in B. split; [exact (conj Hb B)|].
  exact (proj1 (proj2 (H2 (Some (js "key")) noon
     (armed_ops ++ [StartAnalysis true (DataURL (js "data:image/jpeg;base64,AAAA"))])))).
Defined.

(** What [stopCamera] does in any world with a stream bound and a timer
    handle stored. *)
Lemma stopCamera_bound (w : World) (s : MediaStream) (h : positive) :
  videoRef w = Some (mkVideo (Some s)) ->
  analysisTimerRef w = Some h ->
  let w' := step StopCamera w in
  (∀ t, t ∈ getTracks s -> t ∉ liveTracks w') ∧
  videoRef w' = Some (mkVideo None) ∧
  isCameraActive w' = false ∧
  armed w' = false ∧ analysisTimerRef w' = None ∧
  isAnalyzing w' = false ∧
  intervals w' = delete h (intervals w).
Proof.
  intros Hs Hh. unfold armed. handlers. cbn. rewrite Hs. cbn. rewrite Hh. cbn.
  split; [|done].
  intros x Hx. rewrite elem_of_difference, elem_of_list_to_set. tauto.
Qed.

(** C6. In a reachable state with the camera active and the loop armed,
    stopping the camera stops every track of the bound stream, unbinds
    it, sets [isCameraActive] false and makes the loop idle: the handle is
    cleared, [isAnalyzing] is false and the window holds no timer. *)
Theorem stopCamera_stops_analysis (key : option jsstring) (clk : nat -> jsstring)
    (ops : list op) (h : positive) :
  let w := run ops (init key clk) in
  isCameraActive w = true ->
  analysisTimerRef w = Some h ->
  let w' := step StopCamera w in
  ∃ s, videoRef w = Some (mkVideo (Some s)) ∧
       (∀ t, t ∈ getTracks s -> t ∉ liveTracks w') ∧
       videoRef w' = Some (mkVideo None) ∧
       isCameraActive w' = false ∧
       armed w' = false ∧ analysisTimerRef w' = None ∧
       isAnalyzing w' = false ∧
       intervals w' = ∅.
Proof.
  intros w Hc Hh.
  pose proof (reachable_single_timer key clk ops) as Ht.
  pose proof (reachable_camera_bound key clk ops) as Hb.
  fold w in Ht, Hb. unfold single_timer in Ht. rewrite Hh in Ht.
  destruct Ht as [t Ht]. destruct (proj1 Hb Hc) as [s Hs].
  exists s. split; [exact Hs|].
  destruct (stopCamera_bound w s h Hs Hh) as (H1 & H2 & H3 & H4 & H5 & H6 & H7).
  rewrite Ht, delete_singleton_eq in H7. done.
Qed.

Lemma stopCamera_stops_analysis_witness :
  let w := run armed_ops (init (Some (js "key")) noon) in
  let w' := step StopCamera w in
  (isCameraActive w = true ∧ analysisTimerRef w = Some 1%positive) ∧
  videoRef w' = Some (mkVideo None) ∧ isCameraActive w' = false ∧
  analysisTimerRef w' = None ∧ isAnalyzing w' = false ∧ intervals w' = ∅ ∧
  liveTracks w = {[1; 2]}%positive ∧ liveTracks w' = ∅.
Proof.
  intros w w'.
  assert (Hc : isCameraActive w = true) by (vm_compute; reflexivity).
  assert (Hh : analysisTimerRef w = Some 1%positive) by (vm_compute; reflexivity).
  split; [exact (conj Hc Hh)|].
  destruct (stopCamera_stops_analysis (Some (js "key")) noon armed_ops
              1%positive Hc Hh) as (s & _ & _ & H1 & H2 & _ & H3 & H4 & H5).
  split; [exact H1|]. split; [exact H2|]. split; [exact H3|].
  split; [exact H4|]. split; [exact H5|].
  split; vm_compute; reflexivity.
Defined.

(** ** White space *)

Lemma trimStart_no_lead (s : jsstring) : no_lead (trimStart s).
Proof.
  induction s as [|c s IH]; [exact I|].
  cbn. destruct (isWhiteSpace c) eqn:Hc; [exact IH|exact Hc].
Qed.

Lemma trimStart_id (s : jsstring) : no_lead s -> trimStart s = s.
Proof. destruct s as [|c s]; [reflexivity|]. cbn. by intros ->. Qed.

Lemma trimStart_app (l : jsstring) (c : N) (r : jsstring) :
  isWhiteSpace c = false -> trimStart (l ++ c :: r) = trimStart l ++ c :: r.
Proof.
  intros Hc. induction l as [|x l IH]; cbn; [by rewrite Hc|].
  by destruct (isWhiteSpace x).
Qed.

Lemma trimEnd_no_lead (s : jsstring) : no_lead s -> no_lead (trimEnd s).
Proof.
  destruct s as [|c s]; [intros _; exact I|]. cbn. intros Hc.
  unfold trimEnd. cbn. rewrite trimStart_app by exact Hc.
  rewrite rev_app_distr. exact Hc.
Qed.

(** Trimming leaves no white space at either end, so trimming twice
    changes nothing. *)
Lemma trim_no_lead (s : jsstring) : no_lead (trim s) ∧ no_lead (rev (trim s)).
Proof.
  split.
  - apply trimEnd_no_lead, trimStart_no_lead.
  - unfold trim, trimEnd. rewrite rev_involutive. apply trimStart_no_lead.
Qed.

Lemma trim_idempotent (s : jsstring) : trim (trim s) = trim s.
Proof.
  destruct (trim_no_lead s) as [H1 H2].
  unfold trim at 1. rewrite (trimStart_id _ H1).
  unfold trimEnd. rewrite (trimStart_id _ H2). apply rev_involutive.
Qed.

Lemma result_of_displayable (text : option jsstring) :
  result_of text ≠ js "" -> result_of text ≠ js "No signs" ->
  displayable (result_of text).
Proof.
  intros H1 H2. split; [exact H1|]. split; [exact H2|].
  destruct text as [R|]; [|by destruct H1].
  rewrite result_of_Some. apply trim_idempotent.
Qed.

(** What one operation does to the transcription and the history: it
    leaves both alone, or it shows a displayable text and pushes it. *)
Lemma display_step (o : op) (w : World) :
  (transcription (step o w) = transcription w ∧ history (step o w) = history w) ∨
  ∃ R t, displayable R ∧ transcription (step o w) = R ∧
         history (step o w) = take 10 (mkHistory R t :: history w).
Proof.
  destruct o; handlers; crunch.
  all: first
    [ left; split; reflexivity
    | right; eexists _, _; split; [|split; reflexivity];
      match goal with H : _ ≠ _ ∧ _ ≠ _ |- _ =>
        destruct H; by apply result_of_displayable end ].
Qed.
(** ** The transcription panel and the history agree *)

(** X1. Along every run from the initial state the transcription is the
    text of the newest history entry (empty while there is none), and
    every history text is displayable: trimmed, not empty and not the
    sentinel "No signs". *)
Theorem transcription_is_newest (key : option jsstring) (clk : nat -> jsstring)
    (ops : list op) :
  let w := run ops (init key clk) in
  shows_newest w ∧
  (∀ e, e ∈ history w -> displayable (text e)) ∧
  (transcription w = js "" ∨ displayable (transcription w)).
Proof.
  cbv zeta.
  assert (H : shows_newest (run ops (init key clk)) ∧
              Forall (fun e => displayable (text e)) (history (run ops (init key clk)))).
  { apply run_ind with
      (P := fun w => shows_newest w ∧ Forall (fun e => displayable (text e)) (history w)).
    - intros. split; [reflexivity|constructor].
    - intros o w [Hs Hf]. unfold shows_newest in *.
      destruct (display_step o w) as [[-> ->]|(R & t & HR & -> & ->)]; [by split|].
      cbn. split; [reflexivity|]. constructor; [exact HR|by apply Forall_take]. }
  destruct H as [Hs Hf]. split; [exact Hs|]. split.
  - intros e He. by apply (proj1 (Forall_forall _ _) Hf).
  - unfold shows_newest in Hs. rewrite Hs.
    destruct (history (run ops (init key clk))) as [|e h]; [by left|].
    right. by inversion Hf.
Qed.

(** ** Mounting *)

(** ** What a response does *)

Lemma trimStart_blank (s : jsstring) :
  forallb isWhiteSpace s = true -> trimStart s = [].
Proof.
  induction s as [|c s IH]; [reflexivity|]. cbn.
  destruct (isWhiteSpace c); [exact IH|discriminate].
Qed.

(** An undefined response text, or one made of white space only, gives
    the empty result. *)
Lemma result_of_blank (text : option jsstring) :
  match text with
  | Some s => forallb isWhiteSpace s = true
  | None => True
  end ->
  result_of text = js "".
Proof.
  destruct text as [s|]; [|reflexivity]. intros Hs.
  rewrite result_of_Some. unfold trim. by rewrite trimStart_blank.
Qed.

(** X3. The whole policy of lines 142-148 for a parked analysis call
    that gets a response.  The result (the trimmed text, or the empty
    string for an undefined text) is always logged, with type info for the
    sentinel and success otherwise, the empty result included.  The
    empty result and the sentinel change neither transcription nor
    history; every other result becomes the transcription and is pushed
    on the history.  The error message, the timer and [isAnalyzing] are
    never touched, the call leaves the pending list, and [isModelLoading]
    is reset. *)
Theorem response_policy (w : World) (i : nat) (text : option jsstring) :
  pending w !! i = Some AwaitAnalysis ->
  let w' := step (SettleRemote i (Response text)) w in
  let R := result_of text in
  logs w' !! 0 =
    Some (mkLog (clock w (clockReads w)) (js "AI Result: " ++ R)
            (if decide (R = js "No signs") then Info else Success)) ∧
  (if decide (R = js "" ∨ R = js "No signs") then
     transcription w' = transcription w ∧ history w' = history w
   else
     transcription w' = R ∧
     history w' = take 10 (mkHistory R (clock w (S (clockReads w))) :: history w)) ∧
  error w' = error w ∧
  analysisTimerRef w' = analysisTimerRef w ∧ intervals w' = intervals w ∧
  isAnalyzing w' = isAnalyzing w ∧
  pending w' = delete i (pending w) ∧
  isModelLoading w' = false ∧
  (match text with
   | Some s => forallb isWhiteSpace s = true
   | None => True
   end ->
   R = js "" ∧ transcription w' = transcription w ∧ history w' = history w).
Proof.
  intros Hp. handlers. cbn. rewrite Hp. cbn.
  destruct (decide (result_of text ≠ js "" ∧ result_of text ≠ js "No signs")) as [[H1 H2]|Hn];
    destruct (decide (result_of text = js "" ∨ result_of text = js "No signs")) as [Ho|Ho];
    cbn.
  - exfalso. destruct Ho; contradiction.
  - repeat match goal with |- _ ∧ _ => split end; try reflexivity.
    intros Hb. by apply result_of_blank in Hb.
  - repeat match goal with |- _ ∧ _ => split end; try reflexivity.
    intros Hb. apply result_of_blank in Hb. by rewrite Hb.
  - exfalso. apply Hn. split; intros He; apply Ho; [by left|by right].
Qed.

Lemma response_policy_witness :
  let w := camera_on_armed in
  let blank := step (SettleRemote 0 (Response (Some (js "  ")))) w in
  let undefined := step (SettleRemote 0 (Response None)) w in
  let padded := step (SettleRemote 0 (Response (Some (js " No signs ")))) w in
  pending w !! 0 = Some AwaitAnalysis ∧
  (log_type <$> logs blank !! 0 = Some Success ∧ history blank = history w) ∧
  (log_msg <$> logs undefined !! 0 = Some (js "AI Result: ") ∧
   transcription undefined = transcription w) ∧
  (log_type <$> logs padded !! 0 = Some Info ∧ history padded = history w).
Proof.
  assert (Hp : pending camera_on_armed !! 0 = Some AwaitAnalysis) by (vm_compute; reflexivity).
  split; [exact Hp|].
  pose proof (response_policy camera_on_armed 0 (Some (js "  ")) Hp) as (A1 & A2 & _).
  pose proof (response_policy camera_on_armed 0 None Hp) as (B1 & B2 & _).
  pose proof (response_policy camera_on_armed 0 (Some (js " No signs ")) Hp) as (C1 & C2 & _).
  cbv zeta. rewrite A1, B1, C1.
  change (result_of (Some (js "  "))) with (js "") in A2.
  change (result_of None) with (js "") in B2.
  change (result_of (Some (js " No signs "))) with (js "No signs") in C2.
  destruct (decide (js "" = js "" ∨ js "" = js "No signs")) as [_|n];
    [|exfalso; apply n; by left].
  destruct (decide (js "No signs" = js "" ∨ js "No signs" = js "No signs")) as [_|n];
    [|exfalso; apply n; by right].
  split; [split; [reflexivity|exact (proj2 A2)]|].
  split; [split; [reflexivity|exact (proj1 B2)]|].
  split; [reflexivity|exact (proj2 C2)].
Defined.

(** ** The connectivity probe *)

(** X4. Whatever the probe's remote call gives, settling it touches
    neither the analysis loop nor the translation: the stored handle, the
    timer table, [isAnalyzing], the transcription and the history are as
    before, even when the throw carries the rate-limit signature that
    stops the loop in [analyzeFrame].  A response is logged trimmed with
    type success and leaves the error message alone; a throw is logged
    with type error and becomes the error message. *)
Theorem probe_leaves_loop (w : World) (i : nat) (o : remote_outcome) :
  pending w !! i = Some AwaitTest ->
  let w' := step (SettleRemote i o) w in
  analysisTimerRef w' = analysisTimerRef w ∧ intervals w' = intervals w ∧
  isAnalyzing w' = isAnalyzing w ∧
  transcription w' = transcription w ∧ history w' = history w ∧
  isModelLoading w' = false ∧
  match o with
  | Response text =>
      error w' = error w ∧
      logs w' !! 0 =
        Some (mkLog (clock w (clockReads w))
                (js "AI Response: " ++ interpolate (trim <$> text)) Success)
  | Throws message =>
      error w' = Some (js "AI Test Failed: " ++ interpolate message) ∧
      logs w' !! 0 =
        Some (mkLog (clock w (clockReads w))
                (js "AI Test Failed: " ++ interpolate message) Error)
  end.
Proof.
  intros Hp. handlers. cbn. rewrite Hp. destruct o; cbn; auto 10.
Qed.

Lemma probe_leaves_loop_witness :
  let w := step TestAIConnection camera_on_armed in
  let w' := step (SettleRemote 1 (Throws (Some (js "429 RESOURCE_EXHAUSTED")))) w in
  (pending w !! 1 = Some AwaitTest ∧ armed w = true) ∧
  armed w' = true ∧ intervals w' = intervals w ∧ isAnalyzing w' = true ∧
  error w' = Some (js "AI Test Failed: 429 RESOURCE_EXHAUSTED").
Proof.
  assert (Hp : pending (step TestAIConnection camera_on_armed) !! 1 = Some AwaitTest)
    by (vm_compute; reflexivity).
  assert (Ha : armed (step TestAIConnection camera_on_armed) = true)
    by (vm_compute; reflexivity).
  split; [exact (conj Hp Ha)|].
  pose proof (probe_leaves_loop _ 1 (Throws (Some (js "429 RESOURCE_EXHAUSTED"))) Hp)
    as (H1 & H2 & H3 & _ & _ & _ & H4 & _).
  cbv zeta. unfold armed in *. rewrite H1, H3.
  split; [exact Ha|]. split; [exact H2|]. split; [vm_compute; reflexivity|exact H4].
Defined.
(** ** Calls in flight *)

(** What one operation does to the parked calls: a settlement removes the
    call it settles (or nothing, when there is none at that place); every
    other operation only parks new calls behind the old ones. *)
Lemma pending_step (o : op) (w : World) :
  match o with
  | SettleRemote i _ | SettleCamera i _ =>
      pending (step o w) = pending w ∨ pending (step o w) = delete i (pending w)
  | _ => ∃ new, pending (step o w) = pending w ++ new
  end.
Proof.
  destruct o; handlers; crunch.
  all: first [ by left | by right | by exists [] | by eexists [_]
             | exists []; by rewrite app_nil_r ].
Qed.

(** A parked analysis call that gets a displayable response. *)
Lemma settle_accepts (w : World) (i : nat) (R : jsstring) :
  pending w !! i = Some AwaitAnalysis ->
  trim R ≠ js "" -> trim R ≠ js "No signs" ->
  let w' := step (SettleRemote i (Response (Some R))) w in
  transcription w' = trim R ∧
  history w' = take 10 (mkHistory (trim R) (clock w (S (clockReads w))) :: history w) ∧
  pending w' = delete i (pending w) ∧
  clock w' = clock w ∧ clockReads w' = S (S (clockReads w)) ∧
  isCameraActive w' = isCameraActive w ∧ analysisTimerRef w' = analysisTimerRef w.
Proof.
  intros Hp H1 H2. handlers. cbn. rewrite Hp. cbn. rewrite !result_of_Some.
  destruct (decide (trim R ≠ js "" ∧ trim R ≠ js "No signs")) as [_|n]; [|tauto].
  cbn. auto 10.
Qed.

(** X5. Stopping cancels nothing that is in flight.  No operation other
    than its own settlement removes a parked call, so [stopCamera] and
    [stopAnalysis] leave every parked call parked; and when an analysis
    call parked before [stopCamera] gets a displayable response afterwards,
    the response still becomes the transcription and the newest history
    entry, with the camera and the loop left as [stopCamera] left them. *)
Theorem stop_keeps_calls_in_flight (w : World) (i : nat) (R : jsstring) :
  pending w !! i = Some AwaitAnalysis ->
  trim R ≠ js "" -> trim R ≠ js "No signs" ->
  let stopped := step StopCamera w in
  let late := step (SettleRemote i (Response (Some R))) stopped in
  (∀ o, match o with
        | SettleRemote k _ | SettleCamera k _ =>
            pending (step o w) = pending w ∨ pending (step o w) = delete k (pending w)
        | _ => ∃ new, pending (step o w) = pending w ++ new
        end) ∧
  pending stopped = pending w ∧
  pending (step StopAnalysis w) = pending w ∧
  transcription late = trim R ∧
  text <$> history late !! 0 = Some (trim R) ∧
  isCameraActive late = isCameraActive stopped ∧
  analysisTimerRef late = analysisTimerRef stopped.
Proof.
  intros Hp H1 H2. cbv zeta.
  assert (Hs : pending (step StopCamera w) = pending w).
  { handlers. crunch; reflexivity. }
  assert (Ha : pending (step StopAnalysis w) = pending w).
  { handlers. crunch; reflexivity. }
  split; [intros o; apply pending_step|].
  split; [exact Hs|]. split; [exact Ha|].
  rewrite <- Hs in Hp.
  destruct (settle_accepts (step StopCamera w) i R Hp H1 H2)
    as (A1 & A2 & _ & _ & _ & A3 & A4).
  rewrite A1, A2. done.
Qed.

Lemma stop_keeps_calls_in_flight_witness :
  let w := camera_on_armed in
  let R := js "Thank you" in
  let stopped := step StopCamera w in
  let late := step (SettleRemote 0 (Response (Some R))) stopped in
  (pending w !! 0 = Some AwaitAnalysis ∧ trim R ≠ js "" ∧ trim R ≠ js "No signs") ∧
  isCameraActive stopped = false ∧ analysisTimerRef stopped = None ∧
  transcription late = js "Thank you" ∧ isCameraActive late = false.
Proof.
  assert (Hp : pending camera_on_armed !! 0 = Some AwaitAnalysis) by (vm_compute; reflexivity).
  assert (H1 : trim (js "Thank you") ≠ js "") by (vm_compute; discriminate).
  assert (H2 : trim (js "Thank you") ≠ js "No signs") by (vm_compute; discriminate).
  split; [exact (conj Hp (conj H1 H2))|].
  destruct (stop_keeps_calls_in_flight camera_on_armed 0 (js "Thank you") Hp H1 H2)
    as (_ & _ & _ & A & _ & B & _).
  assert (Hc : isCameraActive (step StopCamera camera_on_armed) = false)
    by (vm_compute; reflexivity).
  assert (Ht : analysisTimerRef (step StopCamera camera_on_armed) = None)
    by (vm_compute; reflexivity).
  cbv zeta. rewrite B. exact (conj Hc (conj Ht (conj A Hc))).
Defined.

(** X6. Overlapping analysis calls are not ordered by the time they were
    fired: with two calls parked, the first fired at place [i] and the
    second at place [j], the transcription is the response of whichever
    settles last, and the history lists the two in the order of
    settlement. *)
Theorem last_settled_wins (w : World) (i j : nat) (A B : jsstring) :
  i < j ->
  pending w !! i = Some AwaitAnalysis ->
  pending w !! j = Some AwaitAnalysis ->
  trim A ≠ js "" -> trim A ≠ js "No signs" ->
  trim B ≠ js "" -> trim B ≠ js "No signs" ->
  let in_order := run [SettleRemote i (Response (Some A));
                       SettleRemote (j - 1) (Response (Some B))] w in
  let reversed := run [SettleRemote j (Response (Some B));
                       SettleRemote i (Response (Some A))] w in
  (transcription in_order = trim B ∧
   text <$> take 2 (history in_order) = [trim B; trim A]) ∧
  (transcription reversed = trim A ∧
   text <$> take 2 (history reversed) = [trim A; trim B]).
Proof.
  intros Hij Hi Hj A1 A2 B1 B2. cbv zeta. unfold run. cbn [fold_left]. split.
  - destruct (settle_accepts w i A Hi A1 A2) as (_ & Hh & Hp & _).
    assert (Hj' : pending (step (SettleRemote i (Response (Some A))) w) !! (j - 1)
                  = Some AwaitAnalysis).
    { rewrite Hp, list_lookup_delete_ge by lia. rewrite <- Hj. f_equal. lia. }
    destruct (settle_accepts _ (j - 1) B Hj' B1 B2) as (Ht & Hh' & _).
    rewrite Ht, Hh', Hh. split; reflexivity.
  - destruct (settle_accepts w j B Hj B1 B2) as (_ & Hh & Hp & _).
    assert (Hi' : pending (step (SettleRemote j (Response (Some B))) w) !! i
                  = Some AwaitAnalysis).
    { rewrite Hp, list_lookup_delete_lt by lia. exact Hi. }
    destruct (settle_accepts _ i A Hi' A1 A2) as (Ht & Hh' & _).
    rewrite Ht, Hh', Hh. split; reflexivity.
Qed.

Lemma last_settled_wins_witness :
  let w := step (AnalyzeFrame true (DataURL (js "data:image/jpeg;base64,BBBB"))) camera_on_armed in
  let A := js "Hello" in
  let B := js "Goodbye" in
  (0 < 1 ∧ pending w !! 0 = Some AwaitAnalysis ∧ pending w !! 1 = Some AwaitAnalysis) ∧
  transcription (run [SettleRemote 0 (Response (Some A));
                      SettleRemote (1 - 1) (Response (Some B))] w) = js "Goodbye" ∧
  transcription (run [SettleRemote 1 (Response (Some B));
                      SettleRemote 0 (Response (Some A))] w) = js "Hello".
Proof.
  intros w A B.
  assert (H0 : pending w !! 0 = Some AwaitAnalysis) by (vm_compute; reflexivity).
  assert (H1 : pending w !! 1 = Some AwaitAnalysis) by (vm_compute; reflexivity).
  assert (A1 : trim A ≠ js "") by (vm_compute; discriminate).
  assert (A2 : trim A ≠ js "No signs") by (vm_compute; discriminate).
  assert (B1 : trim B ≠ js "") by (vm_compute; discriminate).
  assert (B2 : trim B ≠ js "No signs") by (vm_compute; discriminate).
  split; [split; [lia|exact (conj H0 H1)]|].
  destruct (last_settled_wins w 0 1 A B ltac:(lia) H0 H1 A1 A2 B1 B2)
    as [[X _] [Y _]].
  exact (conj X Y).
Defined.
(** ** Requests to the remote model *)

(** Induction over the worlds reached from a given one. *)
Lemma run_ind_from (P : World -> Prop) (w0 : World) :
  P w0 ->
  (∀ o w, P w -> P (step o w)) ->
  ∀ ops, P (run ops w0).
Proof.
  intros H0 Hstep ops.
  induction ops as [|o ops IH] using rev_ind; [exact H0|].
  rewrite run_snoc. by apply Hstep.
Qed.

Lemma key_step (o : op) (w : World) : GEMINI_API_KEY (step o w) = GEMINI_API_KEY w.
Proof. destruct o; handlers; crunch; eq_closer. Qed.

(** The requests one operation sends carry the key of the environment,
    which is not empty, and name the model of line 18. *)
Lemma requests_step (o : op) (w : World) (r : Request) :
  r ∈ requests (step o w) ->
  r ∈ requests w ∨
  (GEMINI_API_KEY w = Some (req_apiKey r) ∧ req_apiKey r ≠ [] ∧ req_model r = MODEL_NAME).
Proof.
  unfold requests. destruct o; handlers; crunch; intros Hin.
  all: repeat match goal with
         | H : _ ∈ _ :: _ |- _ => apply elem_of_cons in H as [H|H]
         end;
       first [ by left | right; subst r; cbn; split; [congruence|by split] ].
Qed.

(** X7. No request is ever sent without a credential.  Along every run
    from the initial state each request to the remote model carries the
    key of the environment, which is then present and not empty, and names
    the model "gemini-2.0-flash"; with the key missing or empty no request
    is sent at all, whatever is clicked and however often the timer
    fires. *)
Theorem requests_carry_key (key : option jsstring) (clk : nat -> jsstring)
    (ops : list op) :
  let w := run ops (init key clk) in
  (∀ r, r ∈ requests w ->
        key = Some (req_apiKey r) ∧ req_apiKey r ≠ [] ∧ req_model r = MODEL_NAME) ∧
  (truthy key = false -> requests w = []).
Proof.
  cbv zeta.
  assert (H : GEMINI_API_KEY (run ops (init key clk)) = key ∧
              ∀ r, r ∈ requests (run ops (init key clk)) ->
                   key = Some (req_apiKey r) ∧ req_apiKey r ≠ [] ∧
                   req_model r = MODEL_NAME).
  { apply run_ind_from with
      (P := fun w => GEMINI_API_KEY w = key ∧
                     ∀ r, r ∈ requests w ->
                          key = Some (req_apiKey r) ∧ req_apiKey r ≠ [] ∧
                          req_model r = MODEL_NAME).
    - split; [reflexivity|]. intros r Hr. inversion Hr.
    - intros o w [Hk Hr]. split; [by rewrite key_step|].
      intros r Hin. destruct (requests_step o w r Hin) as [Hold|(H1 & H2 & H3)].
      + by apply Hr.
      + rewrite Hk in H1. done. }
  destruct H as [_ H]. split; [exact H|].
  intros Hk. destruct (requests (run ops (init key clk))) as [|r rs]; [reflexivity|].
  exfalso. destruct (H r) as (H1 & H2 & _); [by left|].
  rewrite H1 in Hk. by destruct (req_apiKey r).
Qed.

Lemma requests_carry_key_witness :
  let ops := [Mount; SettleCamera 0 (Granted (mkStream [1]%positive));
              StartAnalysis true (DataURL (js "data:image/jpeg;base64,AAAA"));
              TimerFires 1%positive (DataURL (js "data:image/jpeg;base64,BBBB"));
              TestAIConnection] in
  truthy None = false ∧
  requests (run ops (init None noon)) = [] ∧
  armed (run ops (init None noon)) = true ∧
  length (requests (run ops (init (Some (js "key")) noon))) = 3.
Proof.
  intros ops. split; [reflexivity|].
  split; [exact (proj2 (requests_carry_key None noon ops) eq_refl)|].
  split; vm_compute; reflexivity.
Defined.

(** ** The console *)

(** One operation writes to the console exactly the lines it logs. *)
Lemma console_step (o : op) (w : World) :
  console (step o w) = (console_line <$> logged o w) ++ console w.
Proof.
  unfold console, logged. destruct o; handlers; crunch; reflexivity.
Qed.

(** X8. Along every run from the initial state the debug log, rendered
    as "[TYPE] message", is an initial part of what was written to the
    browser console, newest first: the console keeps every line, the log
    only the newest fifty since it was last cleared. *)
Theorem log_mirrors_console (key : option jsstring) (clk : nat -> jsstring)
    (ops : list op) :
  let w := run ops (init key clk) in
  (console_line <$> logs w) `prefix_of` console w.
Proof.
  cbv zeta.
  assert (H : (console_line <$> logs (run ops (init key clk)))
                `prefix_of` console (run ops (init key clk)) ∧
              length (logs (run ops (init key clk))) ≤ 50).
  { apply run_ind with
      (P := fun w => (console_line <$> logs w) `prefix_of` console w ∧
                     length (logs w) ≤ 50).
    - intros. split; [by exists []|cbn; lia].
    - intros o w [[k Hk] Hb]. destruct (logs_step o w Hb) as [Hl _].
      split; [|rewrite Hl; destruct o; rewrite ?length_take; first [lia|cbn; lia]].
      rewrite console_step.
      assert (Hpush : (console_line <$> take 50 (logged o w ++ logs w))
                        `prefix_of` ((console_line <$> logged o w) ++ console w)).
      { exists ((console_line <$> drop 50 (logged o w ++ logs w)) ++ k).
        rewrite Hk, !app_assoc, <- fmap_app, <- fmap_app, take_drop.
        by rewrite fmap_app. }
      destruct o; rewrite Hl; first [exact Hpush | by eexists]. }
  exact (proj1 H).
Qed.
(** ** The status label *)

Lemma analyzing_step (o : op) (w : World) :
  capture_benign o ->
  isAnalyzing w = armed w ->
  isAnalyzing (step o w) = armed (step o w).
Proof.
  unfold capture_benign, rate_limit_signature, armed.
  intros Hb. revert Hb.
  destruct o; handlers; crunch; intros; eq_closer.
Qed.

(** X9. Along every run from the initial state in which no frame capture
    inside [startAnalysis] throws a rate-limit message, [isAnalyzing] is
    true exactly when a timer handle is stored: the status label reads
    "Live" exactly when the repeating timer is active. *)
Theorem label_matches_timer (key : option jsstring) (clk : nat -> jsstring)
    (ops : list op) :
  Forall capture_benign ops ->
  let w := run ops (init key clk) in
  isAnalyzing w = armed w ∧
  (statusLabel w = js "Live" <-> intervals w ≠ ∅).
Proof.
  intros Hops. cbv zeta.
  assert (H : isAnalyzing (run ops (init key clk)) = armed (run ops (init key clk))).
  { induction ops as [|o ops IH] using rev_ind; [reflexivity|].
    apply Forall_app in Hops as [Hops Ho]. rewrite run_snoc.
    apply analyzing_step; [by inversion Ho|by apply IH]. }
  split; [exact H|].
  pose proof (reachable_single_timer key clk ops) as Ht.
  unfold statusLabel, armed, single_timer in *. rewrite H.
  destruct (analysisTimerRef (run ops (init key clk))).
  - destruct Ht as [t ->]. split; [intros _|reflexivity].
    apply insert_non_empty.
  - rewrite Ht. split; [discriminate|]. by intros [].
Qed.

Lemma label_matches_timer_witness :
  Forall capture_benign armed_ops ∧
  statusLabel camera_on_armed = js "Live" ∧
  statusLabel (step StopCamera camera_on_armed) = js "Idle".
Proof.
  assert (Hb : Forall capture_benign armed_ops) by (repeat constructor).
  split; [exact Hb|].
  destruct (label_matches_timer (Some (js "key")) noon armed_ops Hb) as [_ [_ H]].
  split; [apply H; vm_compute; discriminate|vm_compute; reflexivity].
Defined.

(** ** The rate-limit signature *)

Lemma startsWith_spec (s sub : jsstring) :
  startsWith s sub = true <-> ∃ post, s = sub ++ post.
Proof.
  revert s. induction sub as [|a sub IH]; intros s.
  - split; [by exists s|by destruct s].
  - destruct s as [|b s]; cbn; [split; [discriminate|by intros [? ?]]|].
    rewrite andb_true_iff, N.eqb_eq, IH. split.
    + intros [-> [post ->]]. by exists post.
    + intros [post Hp]. injection Hp as -> ->. split; [reflexivity|by exists post].
Qed.

Lemma includes_spec (s sub : jsstring) :
  includes s sub = true <-> ∃ pre post, s = pre ++ sub ++ post.
Proof.
  induction s as [|c s IH].
  - change (includes [] sub) with (startsWith [] sub || false).
    rewrite orb_false_r, startsWith_spec. split.
    + intros [post Hp]. by exists [], post.
    + intros (pre & post & Hp). symmetry in Hp.
      apply app_eq_nil in Hp as [-> Hp]. apply app_eq_nil in Hp as [-> ->].
      by exists [].
  - change (includes (c :: s) sub) with (startsWith (c :: s) sub || includes s sub).
    rewrite orb_true_iff, startsWith_spec, IH. split.
    + intros [[post Hp]|(pre & post & ->)].
      * by exists [], post.
      * by exists (c :: pre), post.
    + intros ([|x pre] & post & Hp).
      * left. by exists post.
      * right. injection Hp as -> ->. by exists pre, post.
Qed.

(** X10. The test of line 151 is a plain substring test: a thrown value
    counts as a rate limit exactly when it has a message in which "429" or
    "RESOURCE_EXHAUSTED" occurs somewhere, with upper case letters as
    written; a value without a message never does. *)
Theorem rate_limit_signature_spec (message : option jsstring) :
  rate_limit_signature message = true <->
  ∃ m pre post, message = Some m ∧
    (m = pre ++ js "429" ++ post ∨ m = pre ++ js "RESOURCE_EXHAUSTED" ++ post).
Proof.
  unfold rate_limit_signature. destruct message as [m|].
  - rewrite orb_true_iff, !includes_spec. split.
    + intros [(pre & post & H)|(pre & post & H)]; exists m, pre, post; auto.
    + intros (m' & pre & post & Hm & H). injection Hm as <-.
      destruct H as [H|H]; [left|right]; by exists pre, post.
  - split; [discriminate|]. by intros (m & _ & _ & H & _).
Qed.
(** ** The page as the user drives it *)

Lemma timer_while_camera_step (o : op) (w : World) :
  from_page o w -> timer_while_camera w -> timer_while_camera (step o w).
Proof.
  unfold from_page, timer_while_camera.
  destruct o; handlers; crunch; intros.
  all: repeat match goal with H : _ ∧ _ |- _ => destruct H end; simplify_eq.
  all: repeat match goal with H : intervals _ = _ |- _ => rewrite H end.
  all: first [ done | by apply delete_singleton_eq | by rewrite insert_empty
             | split; first [done | congruence | by rewrite insert_empty] ].
Qed.

Lemma ui_step_cases (e : event) (w : World) :
  ui_step e w = w ∨ ∃ o, ui_step e w = step o w ∧ from_page o w.
Proof.
  unfold ui_step, event_op, onClick, from_page.
  destruct e as [b|h cap|i o|i o]; [destruct b|..]; crunch.
  all: first [ by left
             | right; exists DismissError; by split
             | right; exists ClearLogs; by split
             | right; eexists; split; [reflexivity|]; cbn;
               first [exact I | by destruct (isCameraActive w)] ].
Qed.

Lemma mounted_timer_while_camera key clk : timer_while_camera (mounted key clk).
Proof. unfold mounted. apply timer_while_camera_step; [exact I|reflexivity]. Qed.

Lemma ui_run_snoc (evs : list event) (e : event) (w : World) :
  ui_run (evs ++ [e]) w = ui_step e (ui_run evs w).
Proof. unfold ui_run. by rewrite fold_left_app. Qed.

(** Every world the page reaches is one the handlers reach. *)
Lemma ui_run_is_run key clk (evs : list event) :
  ∃ ops, ui_run evs (mounted key clk) = run ops (init key clk).
Proof.
  induction evs as [|e evs IH] using rev_ind; [by exists [Mount]|].
  destruct IH as [ops IH]. rewrite ui_run_snoc.
  destruct (ui_step_cases e (ui_run evs (mounted key clk))) as [->|(o & -> & _)].
  - by exists ops.
  - exists (ops ++ [o]). by rewrite run_snoc, IH.
Qed.

Lemma page_timer_while_camera key clk (evs : list event) :
  timer_while_camera (ui_run evs (mounted key clk)).
Proof.
  induction evs as [|e evs IH] using rev_ind; [apply mounted_timer_while_camera|].
  rewrite ui_run_snoc.
  destruct (ui_step_cases e (ui_run evs (mounted key clk))) as [->|(o & -> & Ho)];
    [exact IH|by apply timer_while_camera_step].
Qed.

(** X11. Driven through its buttons, timers and settlements, the mounted
    page keeps the analysis loop inside the camera session: whenever a
    timer handle is stored the camera is active, the window holds exactly
    that timer, and its callback is an [analyzeFrame] closure created while
    the camera was active, with the interval of line 19; with no handle
    stored the window holds no timer.  The bounds of the two lists hold as
    for every run of the handlers. *)
Theorem page_keeps_loop_in_camera_session (key : option jsstring)
    (clk : nat -> jsstring) (evs : list event) :
  let w := ui_run evs (mounted key clk) in
  (armed w = true -> isCameraActive w = true) ∧
  (∀ h t, intervals w !! h = Some t ->
          analysisTimerRef w = Some h ∧
          closure_isCameraActive t = true ∧ delay t = ANALYSIS_INTERVAL) ∧
  (armed w = false -> intervals w = ∅) ∧
  length (history w) ≤ 10 ∧ length (logs w) ≤ 50.
Proof.
  cbv zeta. pose proof (page_timer_while_camera key clk evs) as H.
  destruct (ui_run_is_run key clk evs) as [ops Hops].
  pose proof (reachable_bounded key clk ops) as Hb. rewrite <- Hops in Hb.
  unfold timer_while_camera, armed in *.
  destruct (analysisTimerRef (ui_run evs (mounted key clk))) as [h0|].
  - destruct H as [Hc Hi]. split; [done|]. split; [|split; [discriminate|exact Hb]].
    intros h t. rewrite Hi. intros Ht.
    apply lookup_singleton_Some in Ht as [-> <-]. done.
  - split; [discriminate|]. split; [|split; [done|exact Hb]].
    intros h t. rewrite H. by rewrite lookup_empty.
Qed.
(** ** The camera session *)

Lemma bound_tracks_live_step (o : op) (w : World) :
  bound_tracks_live w -> bound_tracks_live (step o w).
Proof.
  unfold bound_tracks_live. intros Hw s t.
  destruct o; handlers; crunch; intros Hs Ht; simplify_eq;
    first [ by eapply Hw
          | rewrite elem_of_union, elem_of_list_to_set; by right
          | rewrite elem_of_union; left; by eapply Hw ].
Qed.

Lemma attached_step (o : op) (w : World) : attached w -> attached (step o w).
Proof.
  unfold attached. intros [Hv Hc]. revert Hv Hc.
  destruct o; handlers; crunch; intros [v Hv] Hc; simplify_eq;
    (split; [by eexists|eq_closer]).
Qed.

Lemma reachable_attached key clk ops : attached (run ops (init key clk)).
Proof.
  apply run_ind with (P := attached); [|exact attached_step].
  intros. split; [by eexists|reflexivity].
Qed.

Lemma reachable_bound_tracks_live key clk ops :
  bound_tracks_live (run ops (init key clk)).
Proof.
  apply run_ind with (P := bound_tracks_live); [|exact bound_tracks_live_step].
  intros k c s t Hs. discriminate Hs.
Qed.

Lemma reachable_key key clk ops : GEMINI_API_KEY (run ops (init key clk)) = key.
Proof.
  apply run_ind_from with (P := fun w => GEMINI_API_KEY w = key); [reflexivity|].
  intros o w <-. apply key_step.
Qed.

(** X12. While the component is mounted, that is along every run of its
    operations from the initial state (unmounting is not one of them),
    [isCameraActive] is true exactly when a stream is bound to the video
    element, every track of the bound stream is live, and the video and
    canvas elements are attached, so the element tests of line 114 do not
    fail before the unmount. *)
Theorem camera_flag_matches_stream (key : option jsstring) (clk : nat -> jsstring)
    (ops : list op) :
  let w := run ops (init key clk) in
  (isCameraActive w = true <-> ∃ s, videoRef w = Some (mkVideo (Some s))) ∧
  (∀ s t, videoRef w = Some (mkVideo (Some s)) -> t ∈ getTracks s -> t ∈ liveTracks w) ∧
  is_Some (videoRef w) ∧ canvasRef w = Some Canvas ∧
  (∀ cam, guards_pass cam w = cam && truthy key).
Proof.
  cbv zeta.
  pose proof (reachable_attached key clk ops) as Ha.
  pose proof (reachable_bound_tracks_live key clk ops) as Hl.
  pose proof (reachable_key key clk ops) as Hk.
  split; [apply (reachable_camera_bound key clk ops)|]. split; [exact Hl|].
  destruct Ha as [[v Hv] Hc]. split; [by exists v|]. split; [exact Hc|].
  intros cam. unfold guards_pass. by rewrite Hv, Hc, Hk.
Qed.
(** A camera request that is granted while the video element is
    attached. *)
Lemma settle_granted (w : World) (i : nat) (s : MediaStream) :
  pending w !! i = Some AwaitUserMedia ->
  is_Some (videoRef w) ->
  let w' := step (SettleCamera i (Granted s)) w in
  videoRef w' = Some (mkVideo (Some s)) ∧
  liveTracks w' = liveTracks w ∪ list_to_set (getTracks s) ∧
  pending w' = delete i (pending w) ∧
  isCameraActive w' = true.
Proof.
  intros Hp [v Hv]. handlers. cbn. rewrite Hp. cbn. rewrite Hv. cbn. auto.
Qed.

(** [stopCamera] with a stream bound. *)
Lemma stopCamera_tracks (w : World) (s : MediaStream) :
  videoRef w = Some (mkVideo (Some s)) ->
  let w' := step StopCamera w in
  liveTracks w' = liveTracks w ∖ list_to_set (getTracks s) ∧
  videoRef w' = Some (mkVideo None) ∧
  isCameraActive w' = false.
Proof.
  intros Hs. handlers. cbn. rewrite Hs. crunch; auto.
Qed.

(** X13. Two camera requests in flight leak a stream.  When two parked
    [getUserMedia] calls are both granted, the second stream replaces the
    first on the video element without the first being stopped, and
    [stopCamera] then stops only the second: every track of the first
    stream that is not also a track of the second is still live after the
    camera is stopped, with no stream left bound through which it could be
    stopped. *)
Theorem second_grant_leaks_first (w : World) (s1 s2 : MediaStream) :
  pending w !! 0 = Some AwaitUserMedia ->
  pending w !! 1 = Some AwaitUserMedia ->
  is_Some (videoRef w) ->
  let w' := run [SettleCamera 0 (Granted s1); SettleCamera 0 (Granted s2); StopCamera] w in
  videoRef w' = Some (mkVideo None) ∧
  isCameraActive w' = false ∧
  (∀ t, t ∈ getTracks s2 -> t ∉ liveTracks w') ∧
  (∀ t, t ∈ getTracks s1 -> t ∉ getTracks s2 -> t ∈ liveTracks w').
Proof.
  intros H0 H1 Hv. cbv zeta. unfold run. cbn [fold_left].
  destruct (settle_granted w 0 s1 H0 Hv) as (A1 & A2 & A3 & _).
  set (w1 := step (SettleCamera 0 (Granted s1)) w) in *.
  assert (H1' : pending w1 !! 0 = Some AwaitUserMedia).
  { rewrite A3, list_lookup_delete_ge by lia. exact H1. }
  destruct (settle_granted w1 0 s2 H1' ltac:(by rewrite A1)) as (B1 & B2 & _).
  set (w2 := step (SettleCamera 0 (Granted s2)) w1) in *.
  destruct (stopCamera_tracks w2 s2 B1) as (C1 & C2 & C3).
  split; [exact C2|]. split; [exact C3|]. rewrite C1, B2, A2. split.
  - intros t Ht. rewrite elem_of_difference, elem_of_list_to_set. tauto.
  - intros t Ht Hn.
    rewrite elem_of_difference, !elem_of_union, !elem_of_list_to_set. tauto.
Qed.

Lemma second_grant_leaks_first_witness :
  let w := run [Mount; StartCamera] (init (Some (js "key")) noon) in
  let s1 := mkStream [1]%positive in
  let s2 := mkStream [2]%positive in
  let w' := run [SettleCamera 0 (Granted s1); SettleCamera 0 (Granted s2); StopCamera] w in
  (pending w !! 0 = Some AwaitUserMedia ∧ pending w !! 1 = Some AwaitUserMedia ∧
   is_Some (videoRef w)) ∧
  isCameraActive w' = false ∧ 1%positive ∈ liveTracks w' ∧ 2%positive ∉ liveTracks w'.
Proof.
  intros w s1 s2 w'.
  assert (H0 : pending w !! 0 = Some AwaitUserMedia) by (vm_compute; reflexivity).
  assert (H1 : pending w !! 1 = Some AwaitUserMedia) by (vm_compute; reflexivity).
  assert (Hv : is_Some (videoRef w)) by (vm_compute; by eexists).
  split; [exact (conj H0 (conj H1 Hv))|].
  destruct (second_grant_leaks_first w s1 s2 H0 H1 Hv) as (_ & A & B & C).
  split; [exact A|]. split.
  - apply C; [by left|]. intros Hin. apply list_elem_of_singleton in Hin. discriminate.
  - apply B. by left.
Defined.

(** X14. Unmounting stops the loop but releases nothing of the camera.
    In whatever state the mounted component is, React detaches the refs
    and the clean-up of lines 181-184 then clears the stored handle and
    leaves no timer in the window, but its [stopCamera] finds no video
    element and returns at line 102: no track is stopped, so every track
    of the stream that was bound is still live, and no call in flight is
    cancelled.  A camera request granted after the unmount is not bound
    either, writes nothing to the console, and its tracks stay live. *)
Theorem unmount_stops_loop_only (key : option jsstring) (clk : nat -> jsstring)
    (ops : list op) :
  let w := run ops (init key clk) in
  let w' := exec unmount w in
  analysisTimerRef w' = None ∧ intervals w' = ∅ ∧
  videoRef w' = None ∧ canvasRef w' = None ∧
  liveTracks w' = liveTracks w ∧
  (∀ s t, videoRef w = Some (mkVideo (Some s)) -> t ∈ getTracks s -> t ∈ liveTracks w') ∧
  pending w' = pending w ∧
  (∀ i s, pending w !! i = Some AwaitUserMedia ->
     let late := exec (settle_camera i (Granted s)) w' in
     videoRef late = None ∧ console late = console w' ∧
     liveTracks late = liveTracks w ∪ list_to_set (getTracks s)).
Proof.
  cbv zeta.
  pose proof (reachable_single_timer key clk ops) as Ht.
  pose proof (reachable_bound_tracks_live key clk ops) as Hl.
  revert Ht Hl. generalize (run ops (init key clk)). intros w Ht Hl.
  assert (Hi : ∀ h, analysisTimerRef w = Some h -> delete h (intervals w) = ∅).
  { intros h Hh. unfold single_timer in Ht. rewrite Hh in Ht.
    destruct Ht as [t0 ->]. apply delete_singleton_eq. }
  assert (Hn : analysisTimerRef w = None -> intervals w = ∅).
  { intros Hh. unfold single_timer in Ht. by rewrite Hh in Ht. }
  clear Ht. unfold console. handlers. cbn.
  destruct (analysisTimerRef w) as [h|] eqn:Hh; cbn.
  all: repeat match goal with |- _ ∧ _ => split end; try reflexivity.
  all: try (by apply Hi); try (by apply Hn); try exact Hl; try exact Hh.
  all: intros i s Hp; rewrite Hp; cbn; by repeat split.
Qed.

(** ** The frame sent to the model *)

Lemma split_no_sep (sep : N) (s : jsstring) : sep ∉ s -> split sep s = [s].
Proof.
  induction s as [|c s IH]; [reflexivity|]. intros Hn.
  apply not_elem_of_cons in Hn as [Hc Hs]. cbn.
  destruct (N.eqb_spec c sep) as [->|_]; [done|]. by rewrite IH.
Qed.

Lemma split_first (sep : N) (pre rest : jsstring) :
  sep ∉ pre -> split sep (pre ++ sep :: rest) = pre :: split sep rest.
Proof.
  induction pre as [|c pre IH]; intros Hn; cbn.
  - by rewrite N.eqb_refl.
  - apply not_elem_of_cons in Hn as [Hc Hs].
    destruct (N.eqb_spec c sep) as [->|_]; [done|]. by rewrite IH.
Qed.

(** X15. A call that passes the guard on a data URL "header,payload",
    neither part holding a comma, logs its start, draws the video on the
    canvas at 640 by 480 and sends exactly one request, and does nothing
    else to the outside: the request carries the key of the environment,
    the model of line 18, the prompt of line 135 and the payload alone as
    inline data, and one call is parked.  For a URL without a comma the
    inline data is undefined, yet the one request is sent all the same. *)
Theorem analyzeFrame_sends_payload (w : World) (cam : bool) (header payload : jsstring) :
  guards_pass cam w = true ->
  44%N ∉ header -> 44%N ∉ payload ->
  let w' := exec (analyzeFrame cam (DataURL (header ++ 44%N :: payload))) w in
  let bare := exec (analyzeFrame cam (DataURL header)) w in
  let started := ConsoleLog (js "[" ++ js "INFO" ++ js "] " ++ js "Analyzing frame...") in
  ∃ k, GEMINI_API_KEY w = Some k ∧ k ≠ [] ∧
       let sent := mkRequest k MODEL_NAME analysis_prompt (Some (Some payload)) in
       let sent_bare := mkRequest k MODEL_NAME analysis_prompt (Some None) in
       effects w' =
         GenerateContent sent :: DrawImage VIDEO_WIDTH VIDEO_HEIGHT :: started :: effects w ∧
       requests w' = sent :: requests w ∧
       pending w' = pending w ++ [AwaitAnalysis] ∧
       effects bare =
         GenerateContent sent_bare :: DrawImage VIDEO_WIDTH VIDEO_HEIGHT :: started
           :: effects w ∧
       requests bare = sent_bare :: requests w ∧
       pending bare = pending w ++ [AwaitAnalysis].
Proof.
  unfold guards_pass, requests. intros Hg Hh Hp. handlers.
  destruct (videoRef w), (canvasRef w), cam; try discriminate.
  destruct (GEMINI_API_KEY w) as [[|c k]|]; try discriminate.
  cbn. rewrite split_first, (split_no_sep 44 payload), (split_no_sep 44 header) by done.
  by exists (c :: k).
Qed.

Lemma analyzeFrame_sends_payload_witness :
  let header := js "data:image/jpeg;base64" in
  let payload := js "/9j/4AAQ" in
  let w' := exec (analyzeFrame true (DataURL (header ++ 44%N :: payload))) camera_on in
  (guards_pass true camera_on = true ∧ (44%N ∉ header) ∧ (44%N ∉ payload)) ∧
  requests w' =
    [mkRequest (js "key") MODEL_NAME analysis_prompt (Some (Some payload))].
Proof.
  intros header payload.
  assert (Hg : guards_pass true camera_on = true) by (vm_compute; reflexivity).
  assert (Hh : 44%N ∉ header)
    by (intros Hin; apply list_elem_of_In in Hin; vm_compute in Hin; intuition discriminate).
  assert (Hp : 44%N ∉ payload)
    by (intros Hin; apply list_elem_of_In in Hin; vm_compute in Hin; intuition discriminate).
  split; [exact (conj Hg (conj Hh Hp))|].
  destruct (analyzeFrame_sends_payload camera_on true header payload Hg Hh Hp)
    as (k & Hk & _ & _ & H & _).
  vm_compute in Hk. injection Hk as <-.
  etrans; [exact H|]. f_equal.
Defined.

(** ** What trimming removes *)

Lemma trimStart_split (s : jsstring) :
  ∃ pre, s = pre ++ trimStart s ∧ forallb isWhiteSpace pre = true.
Proof.
  induction s as [|c s (pre & Hs & Hpre)]; [by exists []|]. cbn.
  destruct (isWhiteSpace c) eqn:Hc; [|by exists []].
  exists (c :: pre). cbn. rewrite Hc, Hpre. split; [by f_equal|reflexivity].
Qed.

Lemma forallb_rev (s : jsstring) :
  forallb isWhiteSpace (rev s) = forallb isWhiteSpace s.
Proof.
  induction s as [|c s IH]; [reflexivity|]. cbn.
  rewrite forallb_app, IH. cbn. rewrite andb_true_r. apply andb_comm.
Qed.

Lemma trimEnd_split (s : jsstring) :
  ∃ post, s = trimEnd s ++ post ∧ forallb isWhiteSpace post = true.
Proof.
  unfold trimEnd. destruct (trimStart_split (rev s)) as (pre & Hs & Hpre).
  exists (rev pre). split; [|by rewrite forallb_rev].
  rewrite <- rev_app_distr, <- Hs. by rewrite rev_involutive.
Qed.

(** X16. The result of line 142 is the response text with the white
    space at its two ends removed and nothing else: the text is the result
    between a run of white space and another, and the result neither
    begins nor ends with white space.  An undefined text gives the empty
    result. *)
Theorem result_of_strips_ends (s : jsstring) :
  (∃ pre post,
     s = pre ++ result_of (Some s) ++ post ∧
     forallb isWhiteSpace pre = true ∧ forallb isWhiteSpace post = true) ∧
  no_lead (result_of (Some s)) ∧ no_lead (rev (result_of (Some s))) ∧
  result_of None = js "".
Proof.
  rewrite result_of_Some. split; [|split; [|split]].
  - unfold trim. destruct (trimStart_split s) as (pre & Hs & Hpre).
    destruct (trimEnd_split (trimStart s)) as (post & Ht & Hpost).
    exists pre, post. split; [|by split]. by rewrite <- Ht.
  - apply trim_no_lead.
  - apply trim_no_lead.
  - reflexivity.
Qed.
(** ** Ticks without back-pressure *)

Lemma tick_parks (w : World) (h : positive) (t : Interval) (url : jsstring) :
  intervals w !! h = Some t ->
  closure_isCameraActive t = true ->
  attached w ->
  truthy (GEMINI_API_KEY w) = true ->
  let w' := ui_step (Tick h (DataURL url)) w in
  pending w' = pending w ++ [AwaitAnalysis] ∧
  length (requests w') = S (length (requests w)) ∧
  intervals w' = intervals w ∧ attached w' ∧
  GEMINI_API_KEY w' = GEMINI_API_KEY w.
Proof.
  unfold attached, requests, ui_step, event_op.
  intros Hh Ht [[v Hv] Hc] Hk. handlers. cbn. rewrite Hh, Ht, Hv, Hc. cbn.
  destruct (GEMINI_API_KEY w) as [[|c k]|] eqn:Hkey; try discriminate. cbn.
  rewrite Hv, Hc. repeat split; first [reflexivity | by exists v | exact Hkey].
Qed.

Lemma ticks_park (urls : list jsstring) (w : World) (h : positive) (t : Interval) :
  intervals w !! h = Some t ->
  closure_isCameraActive t = true ->
  attached w ->
  truthy (GEMINI_API_KEY w) = true ->
  let w' := ui_run (ticks h urls) w in
  pending w' = pending w ++ replicate (length urls) AwaitAnalysis ∧
  length (requests w') = length (requests w) + length urls.
Proof.
  revert w. induction urls as [|url urls IH]; intros w Hh Ht Ha Hk.
  - cbn. by rewrite app_nil_r, Nat.add_0_r.
  - destruct (tick_parks w h t url Hh Ht Ha Hk) as (A1 & A2 & A3 & A4 & A5).
    change (ui_run (ticks h (url :: urls)) w)
      with (ui_run (ticks h urls) (ui_step (Tick h (DataURL url)) w)).
    destruct (IH (ui_step (Tick h (DataURL url)) w)) as [B1 B2];
      [by rewrite A3|exact Ht|exact A4|by rewrite A5|].
    cbv zeta. rewrite B1, B2, A1, A2. split; [by rewrite <- app_assoc|cbn; lia].
Qed.

(** X17. The armed loop applies no back-pressure.  On the mounted page
    with a key present and a timer handle stored, every tick of the timer
    on a captured frame sends a request and parks a call, whether or not
    earlier calls have settled: after [n] ticks in a row there are [n]
    more requests sent and [n] more calls in flight. *)
Theorem ticks_pile_up (key : option jsstring) (clk : nat -> jsstring)
    (evs : list event) (h : positive) (urls : list jsstring) :
  truthy key = true ->
  let w := ui_run evs (mounted key clk) in
  analysisTimerRef w = Some h ->
  let w' := ui_run (ticks h urls) w in
  pending w' = pending w ++ replicate (length urls) AwaitAnalysis ∧
  length (requests w') = length (requests w) + length urls.
Proof.
  intros Hkey w Hh.
  pose proof (page_timer_while_camera key clk evs) as Ht.
  destruct (ui_run_is_run key clk evs) as [ops Hops].
  pose proof (reachable_attached key clk ops) as Ha.
  pose proof (reachable_key key clk ops) as Hk.
  rewrite <- Hops in Ha, Hk. fold w in Ht, Ha, Hk.
  unfold timer_while_camera in Ht. rewrite Hh in Ht. destruct Ht as [_ Hi].
  apply (ticks_park urls w h (mkInterval true ANALYSIS_INTERVAL)).
  - rewrite Hi. apply lookup_singleton_eq.
  - reflexivity.
  - exact Ha.
  - by rewrite Hk.
Qed.

Lemma ticks_pile_up_witness :
  let evs := [Camera 0 (Granted (mkStream [1; 2]%positive));
              Click (AnalysisButton (DataURL (js "data:image/jpeg;base64,AAAA")))] in
  let w := ui_run evs (mounted (Some (js "key")) noon) in
  let urls := [js "data:image/jpeg;base64,BBBB"; js "data:image/jpeg;base64,CCCC"] in
  (truthy (Some (js "key")) = true ∧ analysisTimerRef w = Some 1%positive) ∧
  pending (ui_run (ticks 1%positive urls) w) = [AwaitAnalysis; AwaitAnalysis; AwaitAnalysis].
Proof.
  intros evs w urls.
  assert (Hk : truthy (Some (js "key")) = true) by reflexivity.
  assert (Hh : analysisTimerRef w = Some 1%positive) by (vm_compute; reflexivity).
  split; [exact (conj Hk Hh)|].
  destruct (ticks_pile_up (Some (js "key")) noon evs 1%positive urls Hk Hh) as [H _].
  etrans; [exact H|vm_compute; reflexivity].
Defined.
